(** * A model of the bot-hosting server (index.js)

    The server keeps three kinds of state: the documents of its database
    (AuthSession, User and Bot), the files of the host, and the table
    [botProcesses] of running child processes.  Each route handler is
    written here as a function from the state it reads (and the inputs of
    the request) to its reply and the state it leaves. *)

From Stdlib Require Import ZArith Ascii String List Permutation Sorted Lia.
From stdpp Require Import base option list strings gmap.
Import ListNotations.

Local Open Scope string_scope.

(** ** Strings

    A JavaScript string whose code units are all below 128 is modelled
    by the [string] of these code units.  On such strings the functions
    below are the ones of [String.prototype]; they are the ASCII
    instances of the library functions, and nothing is claimed through
    them about strings with other code units (where [trim] also strips
    U+00A0, U+FEFF and the Unicode spaces, and [toUpperCase] follows the
    Unicode case mappings). *)

Module Str.

Definition is_empty (s : string) : bool :=
  match s with EmptyString => true | _ => false end.

(** [!s] of JavaScript: the empty string is the only falsy string. *)
Definition falsy (s : string) : bool := is_empty s.

Fixpoint rev_acc (s acc : string) : string :=
  match s with
  | EmptyString => acc
  | String c r => rev_acc r (String c acc)
  end.

Definition rev (s : string) : string := rev_acc s EmptyString.

(** The white space of [String.prototype.trim] below 128: tab, line
    feed, vertical tab, form feed, carriage return and space. *)
Definition is_space (c : ascii) : bool :=
  let n := nat_of_ascii c in
  ((9 <=? n)%nat && (n <=? 13)%nat) || (n =? 32)%nat.

Fixpoint trimStart (s : string) : string :=
  match s with
  | EmptyString => EmptyString
  | String c r => if is_space c then trimStart r else s
  end.

(** [trimEnd] keeps a character when it is not white space or when
    something is kept after it. *)
Fixpoint trimEnd (s : string) : string :=
  match s with
  | EmptyString => EmptyString
  | String c r =>
      let r' := trimEnd r in
      if is_space c && is_empty r' then EmptyString else String c r'
  end.

Definition trim (s : string) : string := trimEnd (trimStart s).

Definition upper_char (c : ascii) : ascii :=
  let n := nat_of_ascii c in
  if (97 <=? n)%nat && (n <=? 122)%nat then ascii_of_nat (n - 32) else c.

Definition lower_char (c : ascii) : ascii :=
  let n := nat_of_ascii c in
  if (65 <=? n)%nat && (n <=? 90)%nat then ascii_of_nat (n + 32) else c.

Fixpoint map_chars (f : ascii -> ascii) (s : string) : string :=
  match s with
  | EmptyString => EmptyString
  | String c r => String (f c) (map_chars f r)
  end.

Definition toUpperCase : string -> string := map_chars upper_char.
Definition toLowerCase : string -> string := map_chars lower_char.

(** [s.startsWith(p)] *)
Fixpoint startsWith (p s : string) : bool :=
  match p, s with
  | EmptyString, _ => true
  | String a p', String b s' => if Ascii.eqb a b then startsWith p' s' else false
  | String _ _, EmptyString => false
  end.

(** [s.endsWith(p)] *)
Definition endsWith (p s : string) : bool := startsWith (rev p) (rev s).

(** [s.charAt(i)]: the empty string when [i] is out of range. *)
Definition charAt (s : string) (i : nat) : string :=
  match String.get i s with
  | Some c => String c EmptyString
  | None => EmptyString
  end.

(** [s.split(sep)] for a one-character separator. *)
Fixpoint split (sep : ascii) (s : string) : list string :=
  match s with
  | EmptyString => [EmptyString]
  | String c r =>
      if Ascii.eqb c sep then EmptyString :: split sep r
      else match split sep r with
           | h :: t => String c h :: t
           | [] => [String c EmptyString]
           end
  end.

(** [parts.join(sep)] *)
Fixpoint join (sep : string) (parts : list string) : string :=
  match parts with
  | [] => EmptyString
  | [p] => p
  | p :: rest => p ++ sep ++ join sep rest
  end.

(** The order of [Array.prototype.sort] without a comparator: strings
    compared code unit by code unit, a proper prefix first. *)
Fixpoint codeUnitLeb (a b : string) : bool :=
  match a, b with
  | EmptyString, _ => true
  | String _ _, EmptyString => false
  | String x a', String y b' =>
      if (nat_of_ascii x <? nat_of_ascii y)%nat then true
      else if (nat_of_ascii x =? nat_of_ascii y)%nat then codeUnitLeb a' b'
      else false
  end.

Definition codeUnitLe (a b : string) : Prop := codeUnitLeb a b = true.

(** Characters that neither [trim] nor [toUpperCase] touches, and the
    strings made of them. *)
Definition plain_char (c : ascii) : bool :=
  negb (is_space c) && Ascii.eqb (upper_char c) c.

Fixpoint plain (s : string) : bool :=
  match s with
  | EmptyString => true
  | String c r => plain_char c && plain r
  end.

End Str.

(** ** Paths (the POSIX half of Node's [path] module) *)

Module Path.

Definition slash : ascii := "/"%char.

(** [normalizeString]: walks the segments of the path from left to
    right, dropping empty segments and ".", and resolving ".." against
    the segments kept so far ([res], last segment first). *)
Fixpoint normalizeSegments (allowAboveRoot : bool) (segs res : list string)
  : list string :=
  match segs with
  | [] => List.rev res
  | seg :: rest =>
      if Str.is_empty seg || String.eqb seg "." then
        normalizeSegments allowAboveRoot rest res
      else if String.eqb seg ".." then
        match res with
        | last :: res' =>
            if String.eqb last ".." then
              normalizeSegments allowAboveRoot rest
                (if allowAboveRoot then ".." :: res else res)
            else normalizeSegments allowAboveRoot rest res'
        | [] =>
            normalizeSegments allowAboveRoot rest
              (if allowAboveRoot then [".."] else [])
        end
      else normalizeSegments allowAboveRoot rest (seg :: res)
  end.

Definition isAbsolute (p : string) : bool := Str.startsWith "/" p.

(** [path.normalize] *)
Definition normalize (p : string) : string :=
  if Str.is_empty p then "."
  else
    let absolute := isAbsolute p in
    let trailingSeparator := Str.endsWith "/" p in
    let body :=
      Str.join "/" (normalizeSegments (negb absolute) (Str.split slash p) []) in
    if Str.is_empty body then
      if absolute then "/" else if trailingSeparator then "./" else "."
    else
      let body := if trailingSeparator then body ++ "/" else body in
      if absolute then "/" ++ body else body.

(** [path.join(...args)]: the non-empty arguments, joined by "/" and
    normalized. *)
Definition join (args : list string) : string :=
  match filter (fun a => negb (Str.is_empty a) = true) args with
  | [] => "."
  | parts => normalize (Str.join "/" parts)
  end.

(** The position of the last "." of a name, if any. *)
Fixpoint lastDot (s : string) (i : nat) (found : option nat) : option nat :=
  match s with
  | EmptyString => found
  | String c r =>
      lastDot r (S i) (if Ascii.eqb c "."%char then Some i else found)
  end.

(** [path.extname] of a directory entry (a name without "/"): from the
    last "." to the end; empty when there is no "." or when the only
    "." is the first character, and for "..". *)
Definition extname (name : string) : string :=
  if String.eqb name ".." then EmptyString
  else match lastDot name 0 None with
       | None | Some 0 => EmptyString
       | Some i => String.substring i (String.length name - i) name
       end.

(** The segments that name a file from the root of the file system. *)
Definition segments (p : string) : list string :=
  filter (fun s => negb (Str.is_empty s) = true) (Str.split slash p).

Fixpoint is_prefix (l1 l2 : list string) : bool :=
  match l1, l2 with
  | [], _ => true
  | a :: l1', b :: l2' => String.eqb a b && is_prefix l1' l2'
  | _ :: _, [] => false
  end.

(** [inside root p]: the path [p] names [root] or something below it. *)
Definition inside (root p : string) : bool :=
  is_prefix (segments root) (segments p).

(** A path with a ".." segment, and a path with a "." or ".." segment. *)
Definition hasParentSegment (p : string) : bool :=
  existsb (String.eqb "..") (Str.split slash p).

Definition hasDotSegment (p : string) : bool :=
  existsb (fun s => String.eqb s "." || String.eqb s "..") (Str.split slash p).

(** A segment: not empty and without "/". *)
Definition segment (x : string) : Prop :=
  x <> EmptyString /\ Str.split slash x = [x].

End Path.

(** ** The file system of the host

    A directory keeps its entries in the order in which the operating
    system enumerates them; a file keeps its content.  Paths are
    resolved from the root directory.  The [fs] of index.js is fs-extra
    (line 9), which hands [readdir] to graceful-fs: the names come back
    sorted with [Array.prototype.sort], whatever the order of the
    operating system. *)

Module Fs.

#[local] Set Warnings "-register-all".

Inductive node : Type :=
| File (content : string)
| Dir (entries : list (string * node)).

#[local] Set Warnings "register-all".

Fixpoint lookup_entry (name : string) (es : list (string * node)) : option node :=
  match es with
  | [] => None
  | (n, x) :: rest => if String.eqb n name then Some x else lookup_entry name rest
  end.

(** Replaces the entry [name] where it stands. *)
Fixpoint set_entry (name : string) (x : node) (es : list (string * node))
  : list (string * node) :=
  match es with
  | [] => []
  | (n, y) :: rest =>
      if String.eqb n name then (n, x) :: rest else (n, y) :: set_entry name x rest
  end.

Fixpoint remove_entry (name : string) (es : list (string * node))
  : list (string * node) :=
  match es with
  | [] => []
  | (n, y) :: rest =>
      if String.eqb n name then rest else (n, y) :: remove_entry name rest
  end.

Fixpoint lookup (t : node) (segs : list string) : option node :=
  match segs with
  | [] => Some t
  | s :: rest =>
      match t with
      | Dir es =>
          match lookup_entry s es with
          | Some child => lookup child rest
          | None => None
          end
      | File _ => None
      end
  end.

(** Writes a file at [segs]: the parent must be a directory (ENOENT,
    ENOTDIR otherwise) and the target must not be one (EISDIR).  A new
    file becomes the last entry of its directory. *)
Fixpoint write (t : node) (segs : list string) (content : string) : option node :=
  match segs with
  | [] => None
  | s :: rest =>
      match t with
      | File _ => None
      | Dir es =>
          match rest with
          | [] =>
              match lookup_entry s es with
              | Some (Dir _) => None
              | Some (File _) => Some (Dir (set_entry s (File content) es))
              | None => Some (Dir (es ++ [(s, File content)]))
              end
          | _ :: _ =>
              match lookup_entry s es with
              | Some child =>
                  match write child rest content with
                  | Some child' => Some (Dir (set_entry s child' es))
                  | None => None
                  end
              | None => None
              end
          end
      end
  end.

(** [mkdir -p]: creates the missing directories along [segs]; fails
    when a file stands in the way. *)
Fixpoint mkdirs (t : node) (segs : list string) : option node :=
  match segs with
  | [] => match t with Dir _ => Some t | File _ => None end
  | s :: rest =>
      match t with
      | File _ => None
      | Dir es =>
          match lookup_entry s es with
          | Some child =>
              match mkdirs child rest with
              | Some child' => Some (Dir (set_entry s child' es))
              | None => None
              end
          | None =>
              match mkdirs (Dir []) rest with
              | Some child' => Some (Dir (es ++ [(s, child')]))
              | None => None
              end
          end
      end
  end.

(** Removes the entry at [segs] with everything below it; nothing
    happens when it does not exist. *)
Fixpoint remove (t : node) (segs : list string) : node :=
  match segs with
  | [] => t
  | s :: rest =>
      match t with
      | File _ => t
      | Dir es =>
          match rest with
          | [] => Dir (remove_entry s es)
          | _ :: _ =>
              match lookup_entry s es with
              | Some child => Dir (set_entry s (remove child rest) es)
              | None => t
              end
          end
      end
  end.

(** Places the node [x] at [segs], as the last entry of its parent. *)
Fixpoint place (t : node) (segs : list string) (x : node) : option node :=
  match segs with
  | [] => None
  | s :: rest =>
      match t with
      | File _ => None
      | Dir es =>
          match rest with
          | [] => Some (Dir (remove_entry s es ++ [(s, x)]))
          | _ :: _ =>
              match lookup_entry s es with
              | Some child =>
                  match place child rest x with
                  | Some child' => Some (Dir (set_entry s child' es))
                  | None => None
                  end
              | None => None
              end
          end
      end
  end.

(** *** The calls of [fs] and [fs-extra] that index.js makes.
    [None] stands for a thrown error (a rejected promise). *)

Definition existsSync (t : node) (p : string) : bool :=
  match lookup t (Path.segments p) with Some _ => true | None => false end.

Definition readFile (t : node) (p : string) : option string :=
  match lookup t (Path.segments p) with
  | Some (File c) => Some c
  | _ => None
  end.

Definition writeFile (t : node) (p : string) (content : string) : option node :=
  write t (Path.segments p) content.

(** [files.sort()], as an insertion sort: the result does not depend on
    the algorithm, the order being total on names. *)
Fixpoint insertName (x : string) (l : list string) : list string :=
  match l with
  | [] => [x]
  | y :: rest => if Str.codeUnitLeb x y then x :: l else y :: insertName x rest
  end.

Definition sortNames (l : list string) : list string := foldr insertName [] l.

(** [fs.readdir(p)] of fs-extra: the names of the entries, sorted. *)
Definition readdir (t : node) (p : string) : option (list string) :=
  match lookup t (Path.segments p) with
  | Some (Dir es) => Some (sortNames (map fst es))
  | _ => None
  end.

Record stats : Type := { isDirectory : bool; size : nat }.

Definition stat (t : node) (p : string) : option stats :=
  match lookup t (Path.segments p) with
  | Some (Dir _) => Some {| isDirectory := true; size := 0 |}
  | Some (File c) => Some {| isDirectory := false; size := String.length c |}
  | None => None
  end.

Definition ensureDir (t : node) (p : string) : option node :=
  mkdirs t (Path.segments p).

Definition remove_path (t : node) (p : string) : node :=
  remove t (Path.segments p).

(** [fs.move(src, dest, { overwrite })] *)
Definition move (t : node) (src dest : string) (overwrite : bool) : option node :=
  match lookup t (Path.segments src) with
  | None => None
  | Some x =>
      if existsSync t dest && negb overwrite then None
      else
        match ensureDir t (Path.join [dest; ".."]) with
        | None => None
        | Some t1 => place (remove_path t1 src) (Path.segments dest) x
        end
  end.

(** What stands at [segs]: nothing, a directory, or a file with its
    content. *)
Definition shape (t : node) (segs : list string) : option (option string) :=
  match lookup t segs with
  | None => None
  | Some (Dir _) => Some None
  | Some (File c) => Some (Some c)
  end.

(** *** Well-formed trees: no directory lists a name twice. *)

Fixpoint mem (name : string) (l : list string) : bool :=
  match l with
  | [] => false
  | n :: rest => String.eqb n name || mem name rest
  end.

Fixpoint distinct (l : list string) : bool :=
  match l with
  | [] => true
  | n :: rest => negb (mem n rest) && distinct rest
  end.

Fixpoint wf (t : node) : bool :=
  match t with
  | File _ => true
  | Dir es =>
      distinct (map fst es) &&
      (fix all (l : list (string * node)) : bool :=
         match l with
         | [] => true
         | (_, x) :: rest => wf x && all rest
         end) es
  end.

End Fs.

(** ** Login codes (the /تحقق command and POST /login) *)

Module Auth.

(** Modelled from the spec: the AuthSession schema (models/AuthSession.js
    is not part of the sources read here).  A document holds the code
    string, the bound external identity, display metadata, an issuance
    timestamp and the used flag, false when the document is created;
    index.js adds [usedAt] on redemption. *)
Record AuthSession : Type := {
  code : string;
  discordId : string;
  username : string;
  avatar : string;
  createdAt : Z;
  used : bool;
  usedAt : option Z
}.

(** Modelled from the spec: the User schema (models/User.js), with the
    fields index.js sets when it creates a user. *)
Record User : Type := {
  user_id : string;
  user_discordId : string;
  user_username : string;
  user_avatar : string;
  user_tier : string
}.

(** The two collections, each in insertion order. *)
Record db : Type := {
  sessions : list AuthSession;
  users : list User
}.

Definition empty_db : db := {| sessions := []; users := [] |}.

(** What POST /login stores in the web session. *)
Record WebSession : Type := {
  userId : string;
  ws_discordId : string;
  ws_username : string;
  tier : string
}.

Definition chars : string := "ABCDEFGHJKLMNPQRSTUVWXYZ23456789".

(** [generateCode]: six characters of [chars]; [draw i] is the value of
    [Math.floor(Math.random() * chars.length)] in round [i]. *)
Definition generateCode (draw : nat -> nat) : string :=
  fold_left (fun result i => result ++ Str.charAt chars (draw i)) (seq 0 6) EmptyString.

Definition mark_used (a : AuthSession) : AuthSession :=
  {| code := code a; discordId := discordId a; username := username a;
     avatar := avatar a; createdAt := createdAt a; used := true;
     usedAt := usedAt a |}.

Definition redeemed (now : Z) (a : AuthSession) : AuthSession :=
  {| code := code a; discordId := discordId a; username := username a;
     avatar := avatar a; createdAt := createdAt a; used := true;
     usedAt := Some now |}.

(** [AuthSession.updateMany({ discordId: id, used: false }, { used: true })] *)
Definition invalidate (id : string) (l : list AuthSession) : list AuthSession :=
  map (fun a => if decide (discordId a = id /\ used a = false)
                then mark_used a else a) l.

(** The user of a Discord interaction. *)
Record DiscordUser : Type := {
  du_id : string;
  du_username : string;
  du_avatarURL : string
}.

(** The embed sent back with the code.  Its two fixed fields read
    "validity: 5 minutes" and "use: once". *)
Record Embed : Type := {
  embed_code : string;
  embed_validity_minutes : Z;
  embed_uses : nat
}.

(** [handleVerificationCommand]: the older unused codes of the user are
    marked used, then the new document is saved. *)
Definition handleVerificationCommand
    (d : db) (now : Z) (draw : nat -> nat) (u : DiscordUser) : Embed * db :=
  let c := generateCode draw in
  let authSession :=
    {| code := c; discordId := du_id u; username := du_username u;
       avatar := du_avatarURL u; createdAt := now; used := false;
       usedAt := None |} in
  ({| embed_code := c; embed_validity_minutes := 5; embed_uses := 1 |},
   {| sessions := invalidate (du_id u) (sessions d) ++ [authSession];
      users := users d |}).

(** The error shown by the login page. *)
Inductive login_error : Type :=
| EnterCode      (* no code was entered *)
| WrongCode      (* the code is not correct *)
| LoginFailed.   (* the catch branch *)

Inductive reply : Type :=
| RenderLogin (error : login_error)
| RedirectDashboard.

Definition cleanCode (input : string) : string :=
  Str.toUpperCase (Str.trim input).

(** The normal form as the specification writes it,
    [trim(uppercase(s))]. *)
Definition normalized (s : string) : string :=
  Str.trim (Str.toUpperCase s).

(** [AuthSession.findOne({ code: cleanCode, used: false })]: the first
    such document and its position. *)
Definition findOne_unused (c : string) (l : list AuthSession)
  : option (nat * AuthSession) :=
  list_find (fun a => code a = c /\ used a = false) l.

(** [User.findOne({ discordId })] *)
Definition findUser (id : string) (l : list User) : option User :=
  snd <$> list_find (fun u => user_discordId u = id) l.

(** POST /login.  [fresh] is the identifier the database gives to a new
    user document; the third component is what the handler writes into
    the web session. *)
Definition login (d : db) (now : Z) (fresh : string) (input : string)
  : reply * db * option WebSession :=
  if Str.falsy input then (RenderLogin EnterCode, d, None)
  else
    match findOne_unused (cleanCode input) (sessions d) with
    | None => (RenderLogin WrongCode, d, None)
    | Some (i, authSession) =>
        let '(user, users') :=
          match findUser (discordId authSession) (users d) with
          | Some user => (user, users d)
          | None =>
              let user :=
                {| user_id := fresh; user_discordId := discordId authSession;
                   user_username := username authSession;
                   user_avatar := avatar authSession; user_tier := "free" |} in
              (user, (users d ++ [user])%list)
          end in
        (RedirectDashboard,
         {| sessions := <[i := redeemed now authSession]> (sessions d);
            users := users' |},
         Some {| userId := user_id user; ws_discordId := user_discordId user;
                 ws_username := user_username user; tier := user_tier user |})
    end.

(** The outcomes of the specification's taxonomy, as the login page
    shows them. *)
Inductive outcome : Type :=
| Success
| NotFound
| ValidationError
| InternalError.

Definition outcome_of (r : reply) : outcome :=
  match r with
  | RedirectDashboard => Success
  | RenderLogin WrongCode => NotFound
  | RenderLogin EnterCode => ValidationError
  | RenderLogin LoginFailed => InternalError
  end.

(** The number of unused codes bound to an identity. *)
Definition unused_for (id : string) (l : list AuthSession) : nat :=
  length (filter (fun a => discordId a = id /\ used a = false) l).

(** The steps that change the collections.  [Math.random()] is below
    1, so every draw is a position of [chars]. *)
Inductive step : db -> db -> Prop :=
| step_issue d now draw u :
    (forall i, i < 6 -> draw i < String.length chars) ->
    step d (snd (handleVerificationCommand d now draw u))
| step_login d now fresh input :
    step d (snd (fst (login d now fresh input))).

Inductive reachable : db -> Prop :=
| reachable_empty : reachable empty_db
| reachable_step d d' : reachable d -> step d d' -> reachable d'.

(** The codes [generateCode] makes. *)
Definition well_formed (c : string) : Prop :=
  Str.plain c = true /\ String.length c = 6.

(** What holds of every database the two handlers can produce: the
    codes are well formed, and no identity has two unused codes. *)
Definition invariant (d : db) : Prop :=
  Forall (fun a => well_formed (code a)) (sessions d) /\
  forall id, unused_for id (sessions d) <= 1.

(** The characters left out of [chars] because they are easily taken
    for one another: I and 1, O and 0. *)
Definition ambiguous : list ascii := ["I"; "O"; "0"; "1"]%char.

(** No two unused documents carry the same code string. *)
Definition unused_codes_distinct (l : list AuthSession) : Prop :=
  forall i j a b,
    l !! i = Some a -> l !! j = Some b ->
    code a = code b -> used a = false -> used b = false -> i = j.

(** *** POST /login on any input string

    The code typed into the login page is any JavaScript string, with
    code units that [string] does not hold.  Here [J] is the type of
    JavaScript strings, [text c] the JavaScript string of the stored
    code [c], and [trim] and [toUpperCase] the two methods of
    [String.prototype] that line 128 calls.  With [string] for [J] and
    the functions of [Str] this is [login]. *)

Section AnyString.

Context {J : Type} `{EqDecision J}.
Variable text : string -> J.
Variables trim toUpperCase : J -> J.

(** [!code] *)
Definition falsyWith (input : J) : bool := bool_decide (input = text EmptyString).

(** [code.trim().toUpperCase()] *)
Definition cleanCodeWith (input : J) : J := toUpperCase (trim input).

(** The normal form as the specification writes it. *)
Definition normalizedWith (s : J) : J := trim (toUpperCase s).

Definition findOne_unusedWith (c : J) (l : list AuthSession)
  : option (nat * AuthSession) :=
  list_find (fun a => text (code a) = c /\ used a = false) l.

Definition loginWith (d : db) (now : Z) (fresh : string) (input : J)
  : reply * db * option WebSession :=
  if falsyWith input then (RenderLogin EnterCode, d, None)
  else
    match findOne_unusedWith (cleanCodeWith input) (sessions d) with
    | None => (RenderLogin WrongCode, d, None)
    | Some (i, authSession) =>
        let '(user, users') :=
          match findUser (discordId authSession) (users d) with
          | Some user => (user, users d)
          | None =>
              let user :=
                {| user_id := fresh; user_discordId := discordId authSession;
                   user_username := username authSession;
                   user_avatar := avatar authSession; user_tier := "free" |} in
              (user, (users d ++ [user])%list)
          end in
        (RedirectDashboard,
         {| sessions := <[i := redeemed now authSession]> (sessions d);
            users := users' |},
         Some {| userId := user_id user; ws_discordId := user_discordId user;
                 ws_username := user_username user; tier := user_tier user |})
    end.

End AnyString.

End Auth.

(** ** Bots: their files, their records and their processes *)

Module Host.

Inductive Status : Type := stopped | running.

(** Modelled from the spec: the Bot schema (models/Bot.js), with the
    fields index.js reads and writes. *)
Record Bot : Type := {
  bot_id : string;
  name : string;
  owner : string;
  path : string;
  status : Status;
  createdAt : Z;
  lastStarted : option Z;
  lastStopped : option Z
}.

(** A call of [spawn('node', [mainFile], { cwd })] that started a
    process. *)
Record Spawn : Type := {
  pid : nat;
  mainFile : string;
  cwd : string
}.

(** The state the handlers share: the Bot collection, the table
    [botProcesses] (keyed by [bot._id.toString()]), the files of the
    host, the processes started so far and the SIGTERM signals sent. *)
Record state : Type := {
  bots : list Bot;
  botProcesses : gmap string nat;
  fs : Fs.node;
  spawned : list Spawn;
  killed : list nat
}.

Definition with_bots (st : state) (b : list Bot) : state :=
  {| bots := b; botProcesses := botProcesses st; fs := fs st;
     spawned := spawned st; killed := killed st |}.

Definition with_fs (st : state) (t : Fs.node) : state :=
  {| bots := bots st; botProcesses := botProcesses st; fs := t;
     spawned := spawned st; killed := killed st |}.

(** The messages of the JSON replies. *)
Inductive message : Type :=
| BotNotFound
| FileNotFound
| FileSaved
| ReadFailed
| WriteFailed
| EnterBotName
| LimitReached (botLimit : nat)
| EnterFileOrCode
| BotCreated (botId : string)
| CreateFailed
| AlreadyRunning
| MainFileNotFound
| Started
| StartFailed
| Stopped
| StopFailed.

(** [res.status(http).json({ success, message })]; [FileContent] is the
    reply [{ success: true, content }] of the read route. *)
Inductive reply : Type :=
| Json (http : nat) (success : bool) (m : message)
| FileContent (content : string).

(** What a handler leaves behind: a reply and a state, or the end of the
    host process through the uncaughtException handler
    ([process.exit(1)]). *)
Inductive result : Type :=
| Reply (r : reply) (st : state)
| Exit (exitCode : Z).

(** [Bot.findOne({ _id: id, owner: userId })] *)
Definition findBot (id userId : string) (l : list Bot) : option (nat * Bot) :=
  list_find (fun b => bot_id b = id /\ owner b = userId) l.

(** [Bot.countDocuments({ owner: userId })] *)
Definition countBots (userId : string) (l : list Bot) : nat :=
  length (filter (fun b => owner b = userId) l).

(** [getBotLimit]: [limits[tier] || 1], for the three tiers of [limits]
    and for any other tier name (the property names every object
    inherits, such as "constructor", are not modelled as tiers). *)
Definition getBotLimit (tier : string) : nat :=
  if String.eqb tier "free" then 1
  else if String.eqb tier "premium" then 5
  else if String.eqb tier "ultimate" then 10
  else 1.

(** *** The file routes *)

(** GET /bot/:id/file *)
Definition readRoute (st : state) (sess : Auth.WebSession) (id filePath : string)
  : reply :=
  match findBot id (Auth.userId sess) (bots st) with
  | None => Json 404 false BotNotFound
  | Some (_, bot) =>
      let fullPath := Path.join [path bot; filePath] in
      if negb (Fs.existsSync (fs st) fullPath) then Json 404 false FileNotFound
      else match Fs.readFile (fs st) fullPath with
           | Some content => FileContent content
           | None => Json 500 false ReadFailed
           end
  end.

(** POST /bot/:id/file *)
Definition writeRoute (st : state) (sess : Auth.WebSession)
    (id filePath content : string) : reply * state :=
  match findBot id (Auth.userId sess) (bots st) with
  | None => (Json 404 false BotNotFound, st)
  | Some (_, bot) =>
      let fullPath := Path.join [path bot; filePath] in
      match Fs.writeFile (fs st) fullPath content with
      | Some t => (Json 200 true FileSaved, with_fs st t)
      | None => (Json 500 false WriteFailed, st)
      end
  end.

(** *** The entry file *)

Definition possibleFiles : list string := ["index.js"; "app.js"; "main.js"; "bot.js"].

Fixpoint firstExisting (t : Fs.node) (botDir : string) (files : list string)
  : option string :=
  match files with
  | [] => None
  | file :: rest =>
      let filePath := Path.join [botDir; file] in
      if Fs.existsSync t filePath then Some filePath
      else firstExisting t botDir rest
  end.

(** [findMainFile]; [None] is the [null] of the source. *)
Definition findMainFile (t : Fs.node) (botDir : string) : option string :=
  match firstExisting t botDir possibleFiles with
  | Some filePath => Some filePath
  | None =>
      match Fs.readdir t botDir with
      | Some files =>
          match List.filter (Str.endsWith ".js") files with
          | first :: _ => Some (Path.join [botDir; first])
          | [] => None
          end
      | None => None
      end
  end.

(** What [findMainFile] does after the conventional names: the first
    name of the listing that ends in ".js". *)
Definition listedMain (t : Fs.node) (botDir : string) : option string :=
  match Fs.readdir t botDir with
  | Some files =>
      match List.filter (Str.endsWith ".js") files with
      | first :: _ => Some (Path.join [botDir; first])
      | [] => None
      end
  | None => None
  end.

Definition isFile (t : Fs.node) (p : string) : bool :=
  match Fs.stat t p with
  | Some s => negb (Fs.isDirectory s)
  | None => false
  end.

(** The resolution as the specification words it: when no conventional
    name exists, the first file of the sorted enumeration of the
    directory whose extension is ".js". *)
Definition findMainFile_firstFile (t : Fs.node) (botDir : string) : option string :=
  match firstExisting t botDir possibleFiles with
  | Some filePath => Some filePath
  | None =>
      match Fs.readdir t botDir with
      | Some files =>
          match List.filter
                  (fun f => Str.endsWith ".js" f && isFile t (Path.join [botDir; f]))
                  files with
          | first :: _ => Some (Path.join [botDir; first])
          | [] => None
          end
      | None => None
      end
  end.

(** *** The listing of a bot's directory *)

Inductive kind : Type := directory | file.

Record Entry : Type := {
  e_name : string;
  e_path : string;
  e_type : kind;
  e_size : nat;
  e_extension : string
}.

Definition is_directory (e : Entry) : bool :=
  match e_type e with directory => true | file => false end.

Section Listing.

(** [a.localeCompare(b)]: negative, zero or positive; the collation
    of the host's locale is a parameter of the model. *)
Variable localeCompare : string -> string -> Z.

(** The comparison function given to [structure.sort]. *)
Definition compareEntries (a b : Entry) : Z :=
  if is_directory a && negb (is_directory b) then (-1)%Z
  else if negb (is_directory a) && is_directory b then 1%Z
  else localeCompare (e_name a) (e_name b).

(** [Array.prototype.sort] is stable, and for a consistent comparison
    function its result is the one of a stable insertion sort. *)
Fixpoint insertSorted (x : Entry) (l : list Entry) : list Entry :=
  match l with
  | [] => [x]
  | y :: rest =>
      if (compareEntries x y <=? 0)%Z then x :: l
      else y :: insertSorted x rest
  end.

Definition sortEntries (l : list Entry) : list Entry :=
  foldr insertSorted [] l.

(** The order the comparison function stands for. *)
Definition before (a b : Entry) : Prop := (compareEntries a b <= 0)%Z.

Definition skipped (item : string) : bool :=
  String.eqb item "node_modules" || Str.startsWith "." item.

(** The body of the loop over [items]: what one item adds to
    [structure]. *)
Definition entryOf (t : Fs.node) (dir item : string) : option Entry :=
  if skipped item then None
  else
    match Fs.stat t (Path.join [dir; item]) with
    | Some st =>
        if Fs.isDirectory st then
          Some {| e_name := item; e_path := item; e_type := directory;
                  e_size := 0; e_extension := EmptyString |}
        else
          Some {| e_name := item; e_path := item; e_type := file;
                  e_size := Fs.size st;
                  e_extension := Str.toLowerCase (Path.extname item) |}
    | None => None
    end.

(** [getDirectoryStructure]: the listing, and the file system it
    leaves (a missing directory is created). *)
Definition getDirectoryStructure (t : Fs.node) (dir : string)
  : list Entry * Fs.node :=
  if negb (Fs.existsSync t dir) then
    match Fs.ensureDir t dir with
    | Some t' => ([], t')
    | None => ([], t)
    end
  else
    match Fs.readdir t dir with
    | Some items => (sortEntries (omap (entryOf t dir) items), t)
    | None => ([], t)
    end.

End Listing.

(** *** File-system effects with failure

    A computation on the files either returns a value or throws; in
    both cases it leaves the file system it reached. *)

Definition io (A : Type) : Type := Fs.node -> option A * Fs.node.

Definition io_ret {A : Type} (a : A) : io A := fun t => (Some a, t).

Definition io_bind {A B : Type} (m : io A) (k : A -> io B) : io B :=
  fun t =>
    match m t with
    | (Some a, t') => k a t'
    | (None, t') => (None, t')
    end.

Definition io_try (f : Fs.node -> option Fs.node) : io unit :=
  fun t => match f t with Some t' => (Some tt, t') | None => (None, t) end.

Definition io_do (f : Fs.node -> Fs.node) : io unit := fun t => (Some tt, f t).

Definition io_throw {A : Type} : io A := fun t => (None, t).

Declare Scope io_scope.
Delimit Scope io_scope with io.
Bind Scope io_scope with io.

Notation "m ;; k" := (io_bind m (fun _ => k))
  (at level 100, k at level 200, right associativity) : io_scope.

Local Open Scope io_scope.

(** *** Creating a bot *)

(** The file multer stored for the request; [entries] are the files
    AdmZip reads from it ([None] when it is not a zip archive). *)
Record Upload : Type := {
  originalname : string;
  tmp_path : string;
  entries : option (list (string * string))
}.

(** [zip.extractAllTo(targetPath, true)] *)
Fixpoint extractAllTo (targetPath : string) (es : list (string * string)) : io unit :=
  match es with
  | [] => io_ret tt
  | (entryName, content) :: rest =>
      let target := Path.join [targetPath; entryName] in
      io_try (fun t => Fs.ensureDir t (Path.join [target; ".."])) ;;
      io_try (fun t => Fs.writeFile t target content) ;;
      extractAllTo targetPath rest
  end.

Definition quote : string := String (ascii_of_nat 34) EmptyString.
Definition newline : string := String (ascii_of_nat 10) EmptyString.

(** [s.replace(/\s+/g, '-')] *)
Fixpoint dashes (inRun : bool) (s : string) : string :=
  match s with
  | EmptyString => EmptyString
  | String c r =>
      if Str.is_space c then
        if inRun then dashes true r else String "-"%char (dashes true r)
      else String c (dashes false r)
  end.

Definition quoted (s : string) : string := quote ++ s ++ quote.

Definition member (key value : string) : string :=
  quoted key ++ ": " ++ quoted value.

(** The text of package.json ([JSON.stringify(packageJson, null, 2)]);
    the name is written as it is, without JSON escapes. *)
Definition packageJson (botName : string) : string :=
  Str.join newline
    [ "{";
      "  " ++ member "name" (dashes false (Str.toLowerCase botName)) ++ ",";
      "  " ++ member "version" "1.0.0" ++ ",";
      "  " ++ member "description" "Discord Bot" ++ ",";
      "  " ++ member "main" "index.js" ++ ",";
      "  " ++ quoted "dependencies" ++ ": {";
      "    " ++ member "discord.js" "^14.0.0";
      "  },";
      "  " ++ quoted "scripts" ++ ": {";
      "    " ++ member "start" "node index.js";
      "  }";
      "}" ].

(** The file work of POST /bot/create after the quota check; it returns
    [false] where the handler returns early because neither a file nor
    code was sent. *)
Definition populate (botDir botName botCode : string) (upload : option Upload)
  : io bool :=
  io_try (fun t => Fs.ensureDir t botDir) ;;
  io_bind
    (match upload with
     | Some f =>
         let fileExtension := Str.toLowerCase (Path.extname (originalname f)) in
         (if String.eqb fileExtension ".zip" then
            match entries f with
            | Some es => extractAllTo botDir es
            | None => io_throw
            end
          else
            io_try (fun t =>
              Fs.move t (tmp_path f) (Path.join [botDir; originalname f]) false)) ;;
         io_do (fun t => Fs.remove_path t (tmp_path f)) ;;
         io_ret true
     | None =>
         if negb (Str.falsy botCode) then
           io_try (fun t => Fs.writeFile t (Path.join [botDir; "index.js"]) botCode) ;;
           io_ret true
         else io_ret false
     end)
    (fun filled =>
       if filled then
         io_try (fun t =>
           Fs.writeFile t (Path.join [botDir; "package.json"]) (packageJson botName)) ;;
         io_ret true
       else io_ret false).

(** POST /bot/create.  [dirname] is [__dirname], [newId] the identifier
    the database gives to the new document. *)
Definition createRoute (st : state) (sess : Auth.WebSession)
    (dirname : string) (now : Z) (newId : string)
    (botName botCode : string) (upload : option Upload) : reply * state :=
  if Str.falsy botName then (Json 200 false EnterBotName, st)
  else
    let userBots := countBots (Auth.userId sess) (bots st) in
    let botLimit := getBotLimit (Auth.tier sess) in
    if (botLimit <=? userBots)%nat then (Json 200 false (LimitReached botLimit), st)
    else
      let botDir := Path.join [dirname; "bots"; Auth.userId sess; botName] in
      match populate botDir botName botCode upload (fs st) with
      | (None, t) => (Json 200 false CreateFailed, with_fs st t)
      | (Some false, t) => (Json 200 false EnterFileOrCode, with_fs st t)
      | (Some true, t) =>
          let bot :=
            {| bot_id := newId; name := botName; owner := Auth.userId sess;
               path := botDir; status := stopped; createdAt := now;
               lastStarted := None; lastStopped := None |} in
          (Json 200 true (BotCreated newId),
           with_bots (with_fs st t) (bots st ++ [bot])%list)
      end.

(** *** Starting and stopping *)

(** What [spawn] does: it returns a child with a process behind it, or
    it throws, or it returns a child that has no process and later emits
    'error' (ENOENT, EACCES, EAGAIN).  index.js listens to 'data' and
    'close' only, so that event is an uncaught exception. *)
Inductive spawn_result : Type :=
| Spawned (p : nat)
| SpawnThrows
| SpawnErrorEvent.

Definition started (now : Z) (b : Bot) : Bot :=
  {| bot_id := bot_id b; name := name b; owner := owner b; path := path b;
     status := running; createdAt := createdAt b;
     lastStarted := Some now; lastStopped := lastStopped b |}.

Definition halted (now : Z) (b : Bot) : Bot :=
  {| bot_id := bot_id b; name := name b; owner := owner b; path := path b;
     status := stopped; createdAt := createdAt b;
     lastStarted := lastStarted b; lastStopped := Some now |}.

Definition set_stopped (b : Bot) : Bot :=
  {| bot_id := bot_id b; name := name b; owner := owner b; path := path b;
     status := stopped; createdAt := createdAt b;
     lastStarted := lastStarted b; lastStopped := lastStopped b |}.

(** POST /bot/:id/start *)
Definition startRoute (st : state) (sess : Auth.WebSession) (now : Z)
    (os : spawn_result) (id : string) : result :=
  match findBot id (Auth.userId sess) (bots st) with
  | None => Reply (Json 200 false BotNotFound) st
  | Some (i, bot) =>
      match botProcesses st !! bot_id bot with
      | Some _ => Reply (Json 200 true AlreadyRunning) st
      | None =>
          match findMainFile (fs st) (path bot) with
          | None => Reply (Json 200 false MainFileNotFound) st
          | Some main =>
              match os with
              | SpawnThrows => Reply (Json 200 false StartFailed) st
              | SpawnErrorEvent => Exit 1
              | Spawned p =>
                  Reply (Json 200 true Started)
                    {| bots := <[i := started now bot]> (bots st);
                       botProcesses := <[bot_id bot := p]> (botProcesses st);
                       fs := fs st;
                       spawned := (spawned st ++
                         [{| pid := p; mainFile := main; cwd := path bot |}])%list;
                       killed := killed st |}
              end
          end
      end
  end.

(** POST /bot/:id/stop *)
Definition stopRoute (st : state) (sess : Auth.WebSession) (now : Z)
    (id : string) : reply * state :=
  match findBot id (Auth.userId sess) (bots st) with
  | None => (Json 200 false BotNotFound, st)
  | Some (i, bot) =>
      let st1 :=
        match botProcesses st !! bot_id bot with
        | Some botProcess =>
            {| bots := bots st;
               botProcesses := delete (bot_id bot) (botProcesses st);
               fs := fs st; spawned := spawned st;
               killed := (killed st ++ [botProcess])%list |}
        | None => st
        end in
      (Json 200 true Stopped, with_bots st1 (<[i := halted now bot]> (bots st1)))
  end.

(** The 'close' listener of a bot's process. *)
Definition onClose (st : state) (id : string) : state :=
  {| bots :=
       match list_find (fun b => bot_id b = id) (bots st) with
       | Some (i, b) => <[i := set_stopped b]> (bots st)
       | None => bots st
       end;
     botProcesses := delete id (botProcesses st);
     fs := fs st; spawned := spawned st; killed := killed st |}.

(** Start requests for one bot served one after the other: each
    handler has replied before the next request is taken up.  Each call
    comes with the time of the request and what [spawn] does in it; the
    run ends when the host exits. *)
Fixpoint startMany (st : state) (sess : Auth.WebSession) (id : string)
    (calls : list (Z * spawn_result)) : option state :=
  match calls with
  | [] => Some st
  | (now, os) :: rest =>
      match startRoute st sess now os id with
      | Reply _ st' => startMany st' sess id rest
      | Exit _ => None
      end
  end.

(** *** The start handler, turn by turn

    The handler of POST /bot/:id/start is an async function: it runs in
    turns, and between two of its turns the handlers of other requests
    take theirs.  The turn that follows [await Bot.findOne] (line 486)
    tests [botProcesses.has] (line 492) and calls [findMainFile], which
    tries the conventional names at once; at [await findMainFile]
    (line 496) the handler gives way.  The next turn lists the
    directory if no conventional name was there, spawns (line 502) and
    sets the handle (line 507). *)

Inductive pending : Type :=
| Pending (i : nat) (bot : Bot) (conventional : option string).

Inductive checked : Type :=
| Answered (r : reply)
| Awaiting (w : pending).

(** Lines 486-496, up to the await. *)
Definition startCheck (st : state) (sess : Auth.WebSession) (id : string)
  : checked :=
  match findBot id (Auth.userId sess) (bots st) with
  | None => Answered (Json 200 false BotNotFound)
  | Some (i, bot) =>
      match botProcesses st !! bot_id bot with
      | Some _ => Answered (Json 200 true AlreadyRunning)
      | None =>
          Awaiting (Pending i bot (firstExisting (fs st) (path bot) possibleFiles))
      end
  end.

(** Lines 496-530, from the await on, in the state the host has by
    then. *)
Definition startResume (st : state) (w : pending) (now : Z)
    (os : spawn_result) : result :=
  let 'Pending i bot conventional := w in
  let mainFile :=
    match conventional with
    | Some filePath => Some filePath
    | None => listedMain (fs st) (path bot)
    end in
  match mainFile with
  | None => Reply (Json 200 false MainFileNotFound) st
  | Some main =>
      match os with
      | SpawnThrows => Reply (Json 200 false StartFailed) st
      | SpawnErrorEvent => Exit 1
      | Spawned p =>
          Reply (Json 200 true Started)
            {| bots := <[i := started now bot]> (bots st);
               botProcesses := <[bot_id bot := p]> (botProcesses st);
               fs := fs st;
               spawned := (spawned st ++
                 [{| pid := p; mainFile := main; cwd := path bot |}])%list;
               killed := killed st |}
      end
  end.

(** The turns of the start requests in flight: a request arrives (its
    first turn), or a request that waits is resumed (its second turn,
    with the time and what [spawn] does). *)
Inductive turn : Type :=
| Arrive (request : nat)
| Resume (request : nat) (now : Z) (os : spawn_result).

(** The host, the requests that wait at the await, and the replies sent
    so far. *)
Record serving : Type := {
  host : state;
  waiting : gmap nat pending;
  replies : list (nat * reply)
}.


(** One turn; [None] when the host exits.  Resuming a request that
    does not wait does nothing. *)
Definition serve (sess : Auth.WebSession) (id : string) (s : serving) (e : turn)
  : option serving :=
  match e with
  | Arrive r =>
      match startCheck (host s) sess id with
      | Answered a =>
          Some {| host := host s; waiting := waiting s;
                  replies := (replies s ++ [(r, a)])%list |}
      | Awaiting w =>
          Some {| host := host s; waiting := <[r := w]> (waiting s);
                  replies := replies s |}
      end
  | Resume r now os =>
      match waiting s !! r with
      | None => Some s
      | Some w =>
          match startResume (host s) w now os with
          | Reply a st' =>
              Some {| host := st'; waiting := delete r (waiting s);
                      replies := (replies s ++ [(r, a)])%list |}
          | Exit _ => None
          end
      end
  end.

Fixpoint serveAll (sess : Auth.WebSession) (id : string) (s : serving)
    (turns : list turn) : option serving :=
  match turns with
  | [] => Some s
  | e :: rest =>
      match serve sess id s e with
      | Some s' => serveAll sess id s' rest
      | None => None
      end
  end.

(** *** The outcomes of the specification's taxonomy *)

Inductive outcome : Type :=
| Success
| NotFound
| Conflict
| ValidationError
| IOError
| EntryNotFound
| ProcessError.

Definition outcome_of (r : reply) : outcome :=
  match r with
  | FileContent _ => Success
  | Json _ true _ => Success
  | Json _ false m =>
      match m with
      | BotNotFound | FileNotFound => NotFound
      | LimitReached _ => Conflict
      | EnterBotName | EnterFileOrCode => ValidationError
      | MainFileNotFound => EntryNotFound
      | StartFailed | StopFailed => ProcessError
      | _ => IOError
      end
  end.

End Host.

(** ** The other routes of a bot: its files, its removal *)

Module Manage.

Import Host.
Local Open Scope io_scope.

(** The messages of these routes. *)
Inductive note : Type :=
| BotMissing
| FileMissing
| FileDeleted
| DeleteFileFailed
| FilesUploaded
| UploadFailed
| FilesFailed
| BotDeleted
| DeleteBotFailed.

(** [res.status(http).json({ success, message })], and the reply
    [{ success: true, files }] of the listing route. *)
Inductive answer : Type :=
| Answer (http : nat) (success : bool) (m : note)
| Files (files : list Entry).

(** DELETE /bot/:id/file *)
Definition deleteFileRoute (st : state) (sess : Auth.WebSession)
    (id filePath : string) : answer * state :=
  match findBot id (Auth.userId sess) (bots st) with
  | None => (Answer 404 false BotMissing, st)
  | Some (_, bot) =>
      let fullPath := Path.join [path bot; filePath] in
      if negb (Fs.existsSync (fs st) fullPath) then (Answer 404 false FileMissing, st)
      else (Answer 200 true FileDeleted,
            with_fs st (Fs.remove_path (fs st) fullPath))
  end.

(** GET /bot/:id/files *)
Definition filesRoute (localeCompare : string -> string -> Z)
    (st : state) (sess : Auth.WebSession) (id : string) : answer * state :=
  match findBot id (Auth.userId sess) (bots st) with
  | None => (Answer 404 false BotMissing, st)
  | Some (_, bot) =>
      if Fs.existsSync (fs st) (path bot) then
        let '(files, t) := getDirectoryStructure localeCompare (fs st) (path bot) in
        (Files files, with_fs st t)
      else (Files [], st)
  end.

(** The loop of POST /bot/:id/upload over [req.files]. *)
Fixpoint moveAll (botPath : string) (files : list Upload) : io unit :=
  match files with
  | [] => io_ret tt
  | f :: rest =>
      io_try (fun t =>
        Fs.move t (tmp_path f) (Path.join [botPath; originalname f]) true) ;;
      moveAll botPath rest
  end.

(** POST /bot/:id/upload *)
Definition uploadRoute (st : state) (sess : Auth.WebSession) (id : string)
    (files : list Upload) : answer * state :=
  match findBot id (Auth.userId sess) (bots st) with
  | None => (Answer 404 false BotMissing, st)
  | Some (_, bot) =>
      match moveAll (path bot) files (fs st) with
      | (Some _, t) => (Answer 200 true FilesUploaded, with_fs st t)
      | (None, t) => (Answer 500 false UploadFailed, with_fs st t)
      end
  end.

(** [Bot.findByIdAndDelete(id)]: the document with this identifier
    leaves the collection. *)
Definition findByIdAndDelete (id : string) (l : list Bot) : list Bot :=
  match list_find (fun b => bot_id b = id) l with
  | Some (j, _) => delete j l
  | None => l
  end.

(** POST /bot/:id/delete: the process is stopped if there is one, the
    directory is removed (an error of the removal is logged and passed
    over), the document is deleted. *)
Definition deleteBotRoute (st : state) (sess : Auth.WebSession) (id : string)
    : answer * state :=
  match findBot id (Auth.userId sess) (bots st) with
  | None => (Answer 200 false BotMissing, st)
  | Some (_, bot) =>
      (Answer 200 true BotDeleted,
       {| bots := findByIdAndDelete (bot_id bot) (bots st);
          botProcesses := delete (bot_id bot) (botProcesses st);
          fs := Fs.remove_path (fs st) (path bot);
          spawned := spawned st;
          killed :=
            match botProcesses st !! bot_id bot with
            | Some botProcess => (killed st ++ [botProcess])%list
            | None => killed st
            end |})
  end.

(** The requests and events that change the state.  The database gives
    a new document an identifier no other document has. *)
Inductive step : state -> state -> Prop :=
| step_write st sess id filePath content :
    step st (snd (writeRoute st sess id filePath content))
| step_deleteFile st sess id filePath :
    step st (snd (deleteFileRoute st sess id filePath))
| step_files localeCompare st sess id :
    step st (snd (filesRoute localeCompare st sess id))
| step_upload st sess id files :
    step st (snd (uploadRoute st sess id files))
| step_create st sess dirname now newId botName botCode upload :
    newId ∉ bot_id <$> bots st ->
    step st (snd (createRoute st sess dirname now newId botName botCode upload))
| step_start st sess now os id r st' :
    startRoute st sess now os id = Reply r st' -> step st st'
| step_stop st sess now id :
    step st (snd (stopRoute st sess now id))
| step_close st id :
    step st (onClose st id)
| step_deleteBot st sess id :
    step st (snd (deleteBotRoute st sess id)).

(** The host starts with an empty table of processes, over whatever
    documents and files it finds. *)
Inductive reachable : state -> Prop :=
| reachable_boot b t :
    NoDup (bot_id <$> b) ->
    reachable {| bots := b; botProcesses := ∅; fs := t; spawned := []; killed := [] |}
| reachable_step st st' : reachable st -> step st st' -> reachable st'.

(** A document of the bot [id] that says it is running. *)
Definition running_doc (l : list Bot) (id : string) : Prop :=
  exists i b, l !! i = Some b /\ bot_id b = id /\ status b = running.

(** What the table of processes promises: identifiers are not shared,
    and a bot with a process has a document that says it is running and
    a recorded call of [spawn]. *)
Definition consistent (st : state) : Prop :=
  NoDup (bot_id <$> bots st) /\
  forall id p,
    botProcesses st !! id = Some p ->
    running_doc (bots st) id /\ (exists s, s ∈ spawned st /\ pid s = p).

(** [st'] differs from [st] in its files at most. *)
Definition files_only (st st' : state) : Prop :=
  bots st' = bots st /\ botProcesses st' = botProcesses st /\
  spawned st' = spawned st /\ killed st' = killed st.

End Manage.

(** ** Sample data *)

Module Demo.

Import Host.

Definition demoBot : Bot :=
  {| bot_id := "b1"; name := "hello"; owner := "u1";
     path := "/srv/bots/u1/hello"; status := running; createdAt := 0;
     lastStarted := Some 5%Z; lastStopped := None |}.

Definition demoSession : Auth.WebSession :=
  {| Auth.userId := "u1"; Auth.ws_discordId := "d1";
     Auth.ws_username := "ann"; Auth.tier := "free" |}.

Definition demoFiles : Fs.node :=
  Fs.Dir [("srv", Fs.Dir [("bots", Fs.Dir [("u1", Fs.Dir
    [("hello", Fs.Dir [("index.js", Fs.File "console.log('hi')")])])])])].

Definition demoState : state :=
  {| bots := [demoBot]; botProcesses := ∅; fs := demoFiles;
     spawned := []; killed := [] |}.

(** [demoState] after a first start request at time 10 whose process
    got the identifier 4711. *)
Definition runningState : state :=
  {| bots := [started 10 demoBot];
     botProcesses := {[ "b1" := 4711 ]};
     fs := demoFiles;
     spawned := [{| pid := 4711; mainFile := "/srv/bots/u1/hello/index.js";
                    cwd := "/srv/bots/u1/hello" |}];
     killed := [] |}.

Definition ann : Auth.DiscordUser :=
  {| Auth.du_id := "d1"; Auth.du_username := "ann";
     Auth.du_avatarURL := "https://cdn.example/ann.png" |}.

(** The database after a first code for [ann], issued at time 0. *)
Definition firstIssue : Auth.Embed * Auth.db :=
  Auth.handleVerificationCommand Auth.empty_db 0 (fun i => i) ann.

(** Six minutes, in milliseconds. *)
Definition sixMinutes : Z := 6 * 60 * 1000.

(** A bot whose directory has no conventional entry file; the
    operating system lists z.js before a.js. *)
Definition unsortedFiles : Fs.node :=
  Fs.Dir [("srv", Fs.Dir [("bots", Fs.Dir [("u1", Fs.Dir
    [("hello", Fs.Dir [("z.js", Fs.File "// z"); ("a.js", Fs.File "// a")])])])])].

Definition unsortedState : state :=
  {| bots := [demoBot]; botProcesses := ∅; fs := unsortedFiles;
     spawned := []; killed := [] |}.

(** A directory with the file b.txt and the directory a, listed by
    the operating system in that order. *)
Definition listedFiles : Fs.node :=
  Fs.Dir [("srv", Fs.Dir [("bots", Fs.Dir [("u1", Fs.Dir
    [("hello", Fs.Dir [("b.txt", Fs.File "text"); ("a", Fs.Dir [])])])])])].

(** The comparison of two strings by their code units, a collation a
    host may have. *)
Fixpoint codeUnitCompare (a b : string) : Z :=
  match a, b with
  | EmptyString, EmptyString => 0
  | EmptyString, String _ _ => -1
  | String _ _, EmptyString => 1
  | String x a', String y b' =>
      let d := (Z.of_nat (nat_of_ascii x) - Z.of_nat (nat_of_ascii y))%Z in
      if (d =? 0)%Z then codeUnitCompare a' b' else d
  end.

(** A directory with a hidden directory, a dependency cache and two
    ordinary entries. *)
Definition hiddenFiles : Fs.node :=
  Fs.Dir [("srv", Fs.Dir [("bots", Fs.Dir [("u1", Fs.Dir
    [("hello", Fs.Dir [(".git", Fs.Dir []); ("node_modules", Fs.Dir []);
                       ("Bot.JS", Fs.File "run()"); ("lib", Fs.Dir [])])])])])].

(** [demoState] with a directory lib in the bot's directory. *)
Definition libState : state :=
  {| bots := [demoBot]; botProcesses := ∅;
     fs := Fs.Dir [("srv", Fs.Dir [("bots", Fs.Dir [("u1", Fs.Dir
             [("hello", Fs.Dir [("index.js", Fs.File "console.log('hi')");
                                ("lib", Fs.Dir [])])])])])];
     spawned := []; killed := [] |}.

(** A host without any bot. *)
Definition emptyState : state :=
  {| bots := []; botProcesses := ∅; fs := demoFiles; spawned := []; killed := [] |}.

(** The session of another user. *)
Definition strangerSession : Auth.WebSession :=
  {| Auth.userId := "u2"; Auth.ws_discordId := "d2";
     Auth.ws_username := "bob"; Auth.tier := "free" |}.

(** A second code for [ann], issued at time 1000 with the draws of the
    first. *)
Definition repeatedIssue : Auth.Embed * Auth.db :=
  Auth.handleVerificationCommand (snd firstIssue) 1000 (fun i => i) ann.

(** A second code for [ann] with other draws. *)
Definition secondIssue : Auth.Embed * Auth.db :=
  Auth.handleVerificationCommand (snd firstIssue) 1000 S ann.

(** A collection that holds the unused code AB12CD. *)
Definition storedCode : Auth.db :=
  {| Auth.sessions :=
       [{| Auth.code := "AB12CD"; Auth.discordId := "d1";
           Auth.username := "ann"; Auth.avatar := "https://cdn.example/ann.png";
           Auth.createdAt := 0; Auth.used := false; Auth.usedAt := None |}];
     Auth.users := [] |}.

(** A bot's directory without a conventional entry file, with the file
    b.js and the directory a.js. *)
Definition folderFiles : Fs.node :=
  Fs.Dir [("srv", Fs.Dir [("bots", Fs.Dir [("u1", Fs.Dir
    [("hello", Fs.Dir [("b.js", Fs.File "// b");
                       ("a.js", Fs.Dir [("notes.md", Fs.File "notes")])])])])])].

Definition folderState : state :=
  {| bots := [demoBot]; botProcesses := ∅; fs := folderFiles;
     spawned := []; killed := [] |}.



End Demo.

(** * Properties *)

(** ** Sample evaluations *)

Example join_escape :
  Path.join ["/srv/bots/u1/hello"; "../../secret"] = "/srv/bots/secret".
Proof. reflexivity. Qed.

Example join_plain :
  Path.join ["/srv/bots/u1/hello"; "lib/util.js"] = "/srv/bots/u1/hello/lib/util.js".
Proof. reflexivity. Qed.

Example extname_zip : Path.extname "Bot.ZIP" = ".ZIP".
Proof. reflexivity. Qed.

Example cleanCode_sample : Auth.cleanCode " ab12cd " = "AB12CD".
Proof. reflexivity. Qed.

Example getBotLimit_sample :
  map Host.getBotLimit ["free"; "premium"; "ultimate"; "gold"] = [1; 5; 10; 1].
Proof. reflexivity. Qed.

(** ** Looking up a bot *)

Section FindBot.

Import Host.

Lemma findBot_Some id userId l i bot :
  findBot id userId l = Some (i, bot) ->
  l !! i = Some bot /\ bot_id bot = id /\ owner bot = userId.
Proof.
  unfold findBot. intros H. apply list_find_Some in H. tauto.
Qed.

(** Saving a document that kept its identifier and owner does not change
    which document [findBot] returns. *)
Lemma findBot_insert id userId l i bot bot' :
  findBot id userId l = Some (i, bot) ->
  bot_id bot' = bot_id bot -> owner bot' = owner bot ->
  findBot id userId (<[i := bot']> l) = Some (i, bot').
Proof.
  unfold findBot. intros H Hid Hown.
  apply list_find_Some in H as (Hl & [Hi Ho] & Hleast).
  apply list_find_insert_Some. right; left.
  split_and!; try done.
  - by eapply lookup_lt_Some.
  - congruence.
  - congruence.
Qed.

End FindBot.

(** ** Stopping a bot *)

Section Stop.

Import Host Demo.

(** C10. Stopping a bot that has no process in [botProcesses] answers
    success, stores the status [stopped] and the time of the request as
    [lastStopped] in the bot's document, sends no signal and leaves the
    table of processes as it was. *)
Theorem stop_without_handle_persists
    (st : state) (sess : Auth.WebSession) (now : Z) (id : string)
    (i : nat) (bot : Bot)
    (Hfound : findBot id (Auth.userId sess) (bots st) = Some (i, bot))
    (Hidle : botProcesses st !! id = None) :
  exists st',
    stopRoute st sess now id = (Json 200 true Stopped, st') /\
    outcome_of (Json 200 true Stopped) = Success /\
    (exists bot',
       findBot id (Auth.userId sess) (bots st') = Some (i, bot') /\
       status bot' = stopped /\ lastStopped bot' = Some now /\
       lastStarted bot' = lastStarted bot /\ name bot' = name bot /\
       path bot' = path bot) /\
    (forall j, j <> i -> bots st' !! j = bots st !! j) /\
    botProcesses st' = botProcesses st /\
    killed st' = killed st /\
    spawned st' = spawned st /\
    fs st' = fs st.
Proof.
  destruct (findBot_Some _ _ _ _ _ Hfound) as (Hl & Hid & Hown).
  unfold stopRoute. rewrite Hfound, Hid, Hidle.
  eexists. split; [reflexivity|]. split; [reflexivity|].
  split.
  - exists (halted now bot). split; [|by simpl].
    simpl. by apply (findBot_insert _ _ _ _ bot).
  - split_and!; try reflexivity.
    intros j Hj. simpl. by rewrite list_lookup_insert_ne.
Qed.

Lemma stop_without_handle_persists_witness :
  exists st',
    stopRoute demoState demoSession 99 "b1" = (Json 200 true Stopped, st') /\
    (exists bot',
       findBot "b1" "u1" (bots st') = Some (0, bot') /\
       status bot' = stopped /\ lastStopped bot' = Some 99%Z).
Proof.
  destruct (stop_without_handle_persists demoState demoSession 99 "b1" 0 demoBot)
    as (st' & Hr & _ & (bot' & Hf & Hs & Hl & _) & _).
  - reflexivity.
  - reflexivity.
  - exists st'. split; [exact Hr|]. exists bot'. auto.
Defined.

End Stop.

(** ** Creating a bot under a quota *)

Section Create.

Import Host Demo.

Lemma falsy_false (s : string) : s <> EmptyString -> Str.falsy s = false.
Proof. by destruct s. Qed.

(** A request without a name is turned away before the bots are
    counted. *)
Lemma create_without_name st sess dirname now newId botCode upload :
  createRoute st sess dirname now newId EmptyString botCode upload
  = (Json 200 false EnterBotName, st).
Proof. reflexivity. Qed.

(** C7. When the owner already has as many bots as the tier allows, a
    request to create one more (with a name) is refused with the
    limit-reached reply, a Conflict, and the state is returned as it
    was: no directory is made and no Bot document is added. *)
Theorem create_over_quota_rejected
    (st : state) (sess : Auth.WebSession) (dirname : string) (now : Z)
    (newId botName botCode : string) (upload : option Upload)
    (Hname : botName <> EmptyString)
    (Hquota : getBotLimit (Auth.tier sess)
              <= countBots (Auth.userId sess) (bots st)) :
  createRoute st sess dirname now newId botName botCode upload
  = (Json 200 false (LimitReached (getBotLimit (Auth.tier sess))), st) /\
  outcome_of (Json 200 false (LimitReached (getBotLimit (Auth.tier sess))))
  = Conflict.
Proof.
  unfold createRoute. rewrite (falsy_false _ Hname).
  apply Nat.leb_le in Hquota. by rewrite Hquota.
Qed.

Lemma create_over_quota_rejected_witness :
  createRoute demoState demoSession "/srv" 10 "b2" "second" "console.log(2)" None
  = (Json 200 false (LimitReached 1), demoState).
Proof.
  apply (create_over_quota_rejected demoState demoSession "/srv" 10 "b2"
           "second" "console.log(2)" None).
  - discriminate.
  - vm_compute. lia.
Defined.

(** Below the limit the same request makes the directory and the
    document. *)
Example create_below_quota :
  let st := with_bots demoState [] in
  let '(r, st') :=
    createRoute st demoSession "/srv" 10 "b2" "second" "console.log(2)" None in
  r = Json 200 true (BotCreated "b2") /\
  Fs.existsSync (fs st) "/srv/bots/u1/second" = false /\
  Fs.readFile (fs st') "/srv/bots/u1/second/index.js" = Some "console.log(2)" /\
  map bot_id (bots st') = ["b2"].
Proof. vm_compute. auto. Qed.

End Create.

(** ** Starting a bot *)

Section Start.

Import Host Demo.

(** A start request either leaves the state as it was or starts one
    process and records it under the bot's identifier. *)
Lemma startRoute_cases st sess now os id r st1 :
  startRoute st sess now os id = Reply r st1 ->
  st1 = st \/
  (exists i bot p,
     findBot id (Auth.userId sess) (bots st1) = Some (i, bot) /\
     botProcesses st1 !! id = Some p /\
     botProcesses st !! id = None /\
     length (spawned st1) = S (length (spawned st))).
Proof.
  unfold startRoute.
  destruct (findBot id (Auth.userId sess) (bots st)) as [[i bot]|] eqn:Hf;
    [|intros [= _ <-]; by left].
  destruct (findBot_Some _ _ _ _ _ Hf) as (Hl & Hid & Hown).
  rewrite Hid.
  destruct (botProcesses st !! id) eqn:Hp; [intros [= _ <-]; by left|].
  destruct (findMainFile (fs st) (path bot)); [|intros [= _ <-]; by left].
  destruct os as [p| |]; [|intros [= _ <-]; by left|discriminate].
  intros [= _ <-]. right. exists i, (started now bot), p. simpl.
  split_and!.
  - by apply (findBot_insert _ _ _ _ bot).
  - by rewrite lookup_insert_eq.
  - done.
  - rewrite length_app. simpl. lia.
Qed.

Lemma startRoute_running st sess now os id i bot p :
  findBot id (Auth.userId sess) (bots st) = Some (i, bot) ->
  botProcesses st !! id = Some p ->
  startRoute st sess now os id = Reply (Json 200 true AlreadyRunning) st.
Proof.
  intros Hf Hp. destruct (findBot_Some _ _ _ _ _ Hf) as (_ & Hid & _).
  unfold startRoute. by rewrite Hf, Hid, Hp.
Qed.

Lemma startMany_running st sess id i bot p calls :
  findBot id (Auth.userId sess) (bots st) = Some (i, bot) ->
  botProcesses st !! id = Some p ->
  startMany st sess id calls = Some st.
Proof.
  intros Hf Hp. induction calls as [|[now os] calls IH]; [done|].
  simpl. by rewrite (startRoute_running _ _ _ _ _ _ _ _ Hf Hp).
Qed.

Lemma startMany_spawns_once st sess id calls st' :
  startMany st sess id calls = Some st' ->
  length (spawned st') <= S (length (spawned st)).
Proof.
  revert st. induction calls as [|[now os] calls IH]; intros st; simpl.
  - intros [= <-]. lia.
  - destruct (startRoute st sess now os id) as [r st1|] eqn:Hs; [|discriminate].
    apply startRoute_cases in Hs as [->|(i & bot & p & Hf & Hp & _ & Hlen)].
    + apply IH.
    + rewrite (startMany_running _ _ _ _ _ _ _ Hf Hp). intros [= <-]. lia.
Qed.

(** When the bot already has a process in [botProcesses], a start
    request answers success ("already running") and returns the state as
    it was, whatever [spawn] would do: no process is started.  So a run
    of start requests on a running bot, served one after the other,
    changes nothing, and such a run for one bot, from any state, starts
    at most one process. *)
Lemma start_in_turn_idempotent
    (st : state) (sess : Auth.WebSession) (id : string)
    (i : nat) (bot : Bot) (p : nat)
    (Hfound : findBot id (Auth.userId sess) (bots st) = Some (i, bot))
    (Hlive : botProcesses st !! id = Some p) :
  (forall now os,
     startRoute st sess now os id = Reply (Json 200 true AlreadyRunning) st) /\
  outcome_of (Json 200 true AlreadyRunning) = Success /\
  (forall calls, startMany st sess id calls = Some st) /\
  (forall st0 calls st',
     startMany st0 sess id calls = Some st' ->
     length (spawned st') <= S (length (spawned st0))).
Proof.
  split_and!.
  - intros now os. by eapply startRoute_running.
  - reflexivity.
  - intros calls. by eapply startMany_running.
  - intros st0 calls st'. apply startMany_spawns_once.
Qed.

Lemma start_in_turn_idempotent_witness :
  let st := runningState in
  startRoute st demoSession 20 (Spawned 4712) "b1"
  = Reply (Json 200 true AlreadyRunning) st /\
  startMany demoState demoSession "b1"
    [(10%Z, Spawned 4711); (20%Z, Spawned 4712)] = Some st.
Proof.
  split.
  - apply (start_in_turn_idempotent runningState demoSession "b1" 0
             (started 10 demoBot) 4711); reflexivity.
  - reflexivity.
Defined.

(** The two turns of the handler, taken in one go, are [startRoute]. *)
Lemma startRoute_turns st sess now os id :
  startRoute st sess now os id
  = match startCheck st sess id with
    | Answered r => Reply r st
    | Awaiting w => startResume st w now os
    end.
Proof.
  unfold startRoute, startCheck, startResume, findMainFile, listedMain.
  destruct (findBot id (Auth.userId sess) (bots st)) as [[i bot]|]; [|done].
  destruct (botProcesses st !! bot_id bot); [done|].
  by destruct (firstExisting (fs st) (path bot) possibleFiles).
Qed.

(** A request whose two turns follow one another is served as by
    [startRoute]. *)
Lemma serve_in_turn sess id s r now os :
  waiting s !! r = None ->
  host <$> serveAll sess id s [Arrive r; Resume r now os]
  = match startRoute (host s) sess now os id with
    | Reply _ st' => Some st'
    | Exit _ => None
    end.
Proof.
  intros Hr. rewrite startRoute_turns. cbn [serveAll serve].
  destruct (startCheck (host s) sess id) as [a|w]; cbn [serveAll serve host waiting].
  - by rewrite Hr.
  - rewrite lookup_insert_eq.
    by destruct (startResume (host s) w now os).
Qed.

(** Whenever a request arrives for a bot that has a handle, it is
    answered "already running" and the host stays as it is, whatever
    other requests wait. *)
Lemma arrive_when_running sess id s r i bot p :
  findBot id (Auth.userId sess) (bots (host s)) = Some (i, bot) ->
  botProcesses (host s) !! id = Some p ->
  serve sess id s (Arrive r)
  = Some {| host := host s; waiting := waiting s;
            replies := (replies s ++ [(r, Json 200 true AlreadyRunning)])%list |}.
Proof.
  intros Hf Hp. destruct (findBot_Some _ _ _ _ _ Hf) as (_ & Hid & _).
  unfold serve, startCheck. by rewrite Hf, Hid, Hp.
Qed.


(** When [spawn] throws, the catch branch answers with the start
    failure and nothing was recorded; the handler has no loop, so the
    call is not made again. *)
Lemma start_spawn_throws st sess now id i bot main :
  findBot id (Auth.userId sess) (bots st) = Some (i, bot) ->
  botProcesses st !! id = None ->
  findMainFile (fs st) (path bot) = Some main ->
  startRoute st sess now SpawnThrows id = Reply (Json 200 false StartFailed) st /\
  outcome_of (Json 200 false StartFailed) = ProcessError.
Proof.
  intros Hf Hp Hm. destruct (findBot_Some _ _ _ _ _ Hf) as (_ & Hid & _).
  unfold startRoute. by rewrite Hf, Hid, Hp, Hm.
Qed.

(** C9. When [spawn] reports the failure through the child's 'error'
    event (as it does for ENOENT, EACCES and EAGAIN), the start handler
    gives no ProcessError reply: the event has no listener, and the
    host ends through its uncaughtException handler. *)
Theorem start_spawn_error_event_unreported :
  findBot "b1" "u1" (bots demoState) = Some (0, demoBot) /\
  botProcesses demoState !! "b1" = None /\
  findMainFile (fs demoState) (path demoBot) = Some "/srv/bots/u1/hello/index.js" /\
  startRoute demoState demoSession 10 SpawnErrorEvent "b1" = Exit 1 /\
  (forall st', startRoute demoState demoSession 10 SpawnErrorEvent "b1"
               <> Reply (Json 200 false StartFailed) st').
Proof. split_and!; try reflexivity. intros st'. discriminate. Qed.

End Start.

(** ** Trimming and upper-casing *)

Section Normalize.

Import Str.

Lemma is_space_upper c : is_space (upper_char c) = is_space c.
Proof. destruct c as [[] [] [] [] [] [] [] []]; reflexivity. Qed.

Lemma upper_char_idem c : upper_char (upper_char c) = upper_char c.
Proof. destruct c as [[] [] [] [] [] [] [] []]; reflexivity. Qed.

Lemma is_empty_map_chars f s : is_empty (map_chars f s) = is_empty s.
Proof. by destruct s. Qed.

Lemma is_empty_true s : is_empty s = true -> s = EmptyString.
Proof. by destruct s. Qed.

Lemma trimStart_upper s : trimStart (toUpperCase s) = toUpperCase (trimStart s).
Proof.
  unfold toUpperCase. induction s as [|c s IH]; [done|].
  cbn [map_chars trimStart]. rewrite is_space_upper.
  by destruct (is_space c).
Qed.

Lemma trimEnd_upper s : trimEnd (toUpperCase s) = toUpperCase (trimEnd s).
Proof.
  unfold toUpperCase. induction s as [|c s IH]; [done|].
  cbn [map_chars trimEnd]. rewrite IH, is_space_upper, is_empty_map_chars.
  by destruct (is_space c && is_empty (trimEnd s)).
Qed.

Lemma toUpperCase_idem s : toUpperCase (toUpperCase s) = toUpperCase s.
Proof.
  unfold toUpperCase. induction s as [|c s IH]; [done|].
  cbn [map_chars]. by rewrite upper_char_idem, IH.
Qed.

Lemma trimEnd_idem s : trimEnd (trimEnd s) = trimEnd s.
Proof.
  induction s as [|c s IH]; [done|]. cbn [trimEnd].
  destruct (is_space c && is_empty (trimEnd s)) eqn:E; [done|].
  cbn [trimEnd]. by rewrite IH, E.
Qed.

(** A string that does not begin with white space keeps its first
    character under [trimEnd]. *)
Lemma trimStart_trimEnd s : trimStart (trimEnd (trimStart s)) = trimEnd (trimStart s).
Proof.
  induction s as [|c s IH]; [done|]. cbn [trimStart].
  destruct (is_space c) eqn:E; [exact IH|].
  cbn [trimEnd]. rewrite E. cbn [andb trimStart]. by rewrite E.
Qed.

Lemma trim_idem s : trim (trim s) = trim s.
Proof. unfold trim. by rewrite trimStart_trimEnd, trimEnd_idem. Qed.

Lemma trim_upper s : trim (toUpperCase s) = toUpperCase (trim s).
Proof. unfold trim. by rewrite trimStart_upper, trimEnd_upper. Qed.

(** The order of the two steps does not matter: the form of the
    specification is the one POST /login computes. *)
Lemma normalized_cleanCode s : Auth.normalized s = Auth.cleanCode s.
Proof. apply trim_upper. Qed.

Lemma cleanCode_idem s : Auth.cleanCode (Auth.cleanCode s) = Auth.cleanCode s.
Proof.
  unfold Auth.cleanCode.
  by rewrite <- trim_upper, toUpperCase_idem, trim_upper, trim_idem.
Qed.

Lemma plain_app s1 s2 : plain (s1 ++ s2) = plain s1 && plain s2.
Proof.
  induction s1 as [|c s1 IH]; [done|].
  change (plain (String c (s1 ++ s2)) = plain (String c s1) && plain s2).
  cbn [plain]. by rewrite IH, andb_assoc.
Qed.

Lemma length_append s1 s2 :
  String.length (s1 ++ s2) = String.length s1 + String.length s2.
Proof.
  induction s1 as [|c s1 IH]; [done|].
  change (S (String.length (s1 ++ s2)) = S (String.length s1) + String.length s2).
  by rewrite IH.
Qed.

Lemma plain_trimStart s : plain s = true -> trimStart s = s.
Proof.
  destruct s as [|c s]; [done|]. cbn [plain trimStart].
  unfold plain_char. by destruct (is_space c).
Qed.

Lemma plain_trimEnd s : plain s = true -> trimEnd s = s.
Proof.
  induction s as [|c s IH]; [done|]. cbn [plain trimEnd].
  intros [Hc Hs]%andb_true_iff. rewrite (IH Hs).
  unfold plain_char in Hc. by destruct (is_space c).
Qed.

Lemma plain_toUpperCase s : plain s = true -> toUpperCase s = s.
Proof.
  unfold toUpperCase. induction s as [|c s IH]; [done|]. cbn [plain map_chars].
  intros [[_ Hc]%andb_true_iff Hs]%andb_true_iff.
  apply Ascii.eqb_eq in Hc. by rewrite Hc, (IH Hs).
Qed.

Lemma plain_cleanCode s : plain s = true -> Auth.cleanCode s = s.
Proof.
  intros H. unfold Auth.cleanCode, trim.
  by rewrite (plain_trimStart _ H), (plain_trimEnd _ H), (plain_toUpperCase _ H).
Qed.

End Normalize.

(** ** Redeeming a code *)

Section Redeem.

Import Auth Demo.

Lemma findOne_unused_Some c l i a :
  findOne_unused c l = Some (i, a) ->
  l !! i = Some a /\ code a = c /\ used a = false.
Proof. unfold findOne_unused. intros H%list_find_Some. tauto. Qed.

(** The reply of POST /login does not depend on the time of the
    request. *)
Lemma login_ignores_time d now1 now2 fresh input :
  fst (fst (login d now1 fresh input)) = fst (fst (login d now2 fresh input)).
Proof.
  unfold login. destruct (Str.falsy input); [done|].
  destruct (findOne_unused (cleanCode input) (sessions d)) as [[i a]|]; [|done].
  by destruct (findUser (discordId a) (users d)).
Qed.

(** C2. A code issued at time 0, whose embed announces a validity of 5
    minutes, is still redeemed six minutes later: POST /login looks the
    code up by its string and its used flag only. *)
Theorem expired_code_is_redeemed :
  let '(embed, d1) := firstIssue in
  embed_code embed = "ABCDEF" /\
  embed_validity_minutes embed = 5%Z /\
  map createdAt (sessions d1) = [0%Z] /\
  (sixMinutes - 0 > 5 * 60 * 1000)%Z /\
  let '(r, d2, ws) := login d1 sixMinutes "u1" "ABCDEF" in
  r = RedirectDashboard /\
  outcome_of r = Success /\
  map (fun a => (code a, used a, usedAt a)) (sessions d2)
  = [("ABCDEF", true, Some sixMinutes)] /\
  (userId <$> ws) = Some "u1".
Proof. vm_compute. split_and!; congruence. Qed.

(** C8, as stated, fails on an input of white space only: the input " "
    passes the emptiness test and is answered "wrong code", its normal
    form is the empty string and is answered "enter a code". *)
Lemma login_blank_input_differs :
  normalized " " = EmptyString /\
  login empty_db 0 "u1" " " = (RenderLogin WrongCode, empty_db, None) /\
  login empty_db 0 "u1" (normalized " ") = (RenderLogin EnterCode, empty_db, None) /\
  login empty_db 0 "u1" " " <> login empty_db 0 "u1" (normalized " ").
Proof. split_and!; try reflexivity. vm_compute. discriminate. Qed.

End Redeem.

(** ** Issuing a code *)

Section Issue.

Import Auth Demo.

Implicit Types (l : list AuthSession) (a : AuthSession) (id : string).

Lemma invalidate_lookup id l i a :
  l !! i = Some a ->
  exists a', invalidate id l !! i = Some a' /\
             code a' = code a /\ discordId a' = discordId a /\
             (discordId a = id -> used a' = true) /\
             (discordId a <> id -> a' = a).
Proof.
  intros H. unfold invalidate. rewrite list_lookup_fmap, H. simpl.
  eexists. split; [reflexivity|].
  destruct (decide (discordId a = id /\ used a = false)) as [[Hd _]|Hd].
  - by split_and!.
  - split_and!; try done. intros Hi. destruct (used a) eqn:E; [done|].
    by destruct Hd.
Qed.

Lemma unused_for_app id l1 l2 :
  unused_for id (l1 ++ l2) = unused_for id l1 + unused_for id l2.
Proof. unfold unused_for. by rewrite filter_app, length_app. Qed.

Lemma unused_for_invalidate_same id l : unused_for id (invalidate id l) = 0.
Proof.
  unfold unused_for. induction l as [|a l IH]; [done|].
  cbn [invalidate map]. fold (invalidate id l).
  rewrite filter_cons_False; [exact IH|].
  destruct (decide (discordId a = id /\ used a = false)) as [Hd|Hd]; simpl.
  - intros [_ [=]].
  - done.
Qed.

Lemma unused_for_invalidate_other id id' l :
  id' <> id -> unused_for id' (invalidate id l) = unused_for id' l.
Proof.
  intros Hne. unfold unused_for. induction l as [|a l IH]; [done|].
  cbn [invalidate map]. fold (invalidate id l).
  destruct (decide (discordId a = id /\ used a = false)) as [[Hd Hu]|Hd].
  - rewrite !filter_cons_False; [exact IH| |].
    + intros [? _]. congruence.
    + simpl. intros [? _]. congruence.
  - rewrite !filter_cons.
    destruct (decide (discordId a = id' /\ used a = false)); simpl; by rewrite IH.
Qed.

(** After a code is issued the identity has exactly one unused code, and
    the other identities have as many as before. *)
Lemma issue_unused_count d now draw u id :
  unused_for id (sessions (snd (handleVerificationCommand d now draw u)))
  = if decide (id = du_id u) then 1 else unused_for id (sessions d).
Proof.
  simpl. rewrite unused_for_app. unfold unused_for at 2.
  case_decide as Hd.
  - subst id. rewrite unused_for_invalidate_same.
    by rewrite filter_cons_True.
  - rewrite unused_for_invalidate_other by done.
    rewrite filter_cons_False by (simpl; intros [? _]; congruence).
    simpl. lia.
Qed.

Lemma unused_for_redeemed id l i a now :
  l !! i = Some a ->
  unused_for id (<[i := redeemed now a]> l) <= unused_for id l.
Proof.
  intros H. rewrite insert_take_drop by (by eapply lookup_lt_Some).
  rewrite <- (take_drop_middle l i a H) at 3.
  rewrite !unused_for_app. apply Nat.add_le_mono_l. unfold unused_for.
  rewrite filter_cons_False by (simpl; intros [_ [=]]).
  rewrite filter_cons.
  destruct (decide (discordId a = id /\ used a = false)); simpl; lia.
Qed.

(** What POST /login does to the collection of codes. *)
Lemma login_sessions d now fresh input :
  sessions (snd (fst (login d now fresh input))) = sessions d \/
  exists i a, sessions d !! i = Some a /\
              sessions (snd (fst (login d now fresh input)))
              = <[i := redeemed now a]> (sessions d).
Proof.
  unfold login. destruct (Str.falsy input); [by left|].
  destruct (findOne_unused (cleanCode input) (sessions d)) as [[i a]|] eqn:E;
    [|by left].
  apply findOne_unused_Some in E as (Hl & _).
  right. exists i, a. split; [done|].
  by destruct (findUser (discordId a) (users d)).
Qed.

Lemma charAt_chars n :
  n < String.length chars ->
  Str.plain (Str.charAt chars n) = true /\ String.length (Str.charAt chars n) = 1.
Proof.
  intros H. do 32 (destruct n as [|n]; [by split|]).
  simpl in H. lia.
Qed.

Lemma generateCode_well_formed draw :
  (forall i, i < 6 -> draw i < String.length chars) ->
  well_formed (generateCode draw).
Proof.
  intros H. unfold generateCode, well_formed. cbn [seq fold_left].
  rewrite !plain_app, !length_append.
  destruct (charAt_chars (draw 0)) as [-> ->]; [apply H; lia|].
  destruct (charAt_chars (draw 1)) as [-> ->]; [apply H; lia|].
  destruct (charAt_chars (draw 2)) as [-> ->]; [apply H; lia|].
  destruct (charAt_chars (draw 3)) as [-> ->]; [apply H; lia|].
  destruct (charAt_chars (draw 4)) as [-> ->]; [apply H; lia|].
  destruct (charAt_chars (draw 5)) as [-> ->]; [apply H; lia|].
  by split.
Qed.

Lemma reachable_invariant d : reachable d -> invariant d.
Proof.
  induction 1 as [|d d' _ [Hwf Hone] Hstep].
  - split; [constructor|]. intros id. unfold unused_for. simpl. lia.
  - destruct Hstep as [d now draw u Hdraw|d now fresh input].
    + split.
      * simpl. apply Forall_app. split.
        -- unfold invalidate. apply Forall_fmap.
           eapply Forall_impl; [exact Hwf|]. intros a Ha. simpl.
           by case_decide.
        -- constructor; [|constructor]. by apply generateCode_well_formed.
      * intros id. rewrite issue_unused_count. case_decide; [lia|apply Hone].
    + unfold invariant.
      destruct (login_sessions d now fresh input) as [->|(i & a & Hl & ->)];
        [by split|].
      split.
      * apply Forall_insert; [done|]. simpl.
        by eapply (Forall_lookup_1 _ _ _ _ Hwf).
      * intros id. etrans; [by apply unused_for_redeemed|apply Hone].
Qed.

End Issue.

Section IssueTwice.

Import Auth Demo.

Lemma invalidate_unused id l b' :
  b' ∈ invalidate id l -> used b' = false ->
  b' ∈ l /\ discordId b' <> id.
Proof.
  unfold invalidate. intros Hin Hu.
  apply list_elem_of_fmap in Hin as (b & -> & Hb).
  destruct (decide (discordId b = id /\ used b = false)) as [_|Hn]; [done|].
  split; [exact Hb|]. intros Hid. by apply Hn.
Qed.

Lemma invalidate_keeps_other id l b :
  b ∈ l -> discordId b <> id -> b ∈ invalidate id l.
Proof.
  intros Hb Hid. unfold invalidate.
  apply list_elem_of_fmap. exists b. split; [|exact Hb].
  destruct (decide (discordId b = id /\ used b = false)) as [[? _]|_]; done.
Qed.

(** C3, as amended. Issuing a code for an identity marks every earlier
    code of that identity as used; afterwards the identity has exactly
    one unused code and, in every database the two handlers produce
    one request after the other, no identity has more than one.
    Redeeming an earlier code of the identity is then answered "wrong
    code" (NotFound) and changes nothing, unless an unused document
    carries the same code string: the new code, when the six random
    characters repeat the earlier ones, or an unused code of another
    identity.  In these cases the redemption succeeds. *)
Theorem issue_invalidates_earlier_codes
    (d : db) (now : Z) (draw : nat -> nat) (u : DiscordUser)
    (Hreach : reachable d) :
  let d' := snd (handleVerificationCommand d now draw u) in
  (forall i a,
     sessions d !! i = Some a -> discordId a = du_id u ->
     exists a', sessions d' !! i = Some a' /\ code a' = code a /\
                discordId a' = du_id u /\ used a' = true) /\
  unused_for (du_id u) (sessions d') = 1 /\
  (forall id, unused_for id (sessions d') <= 1) /\
  (forall a now' fresh,
     a ∈ sessions d -> discordId a = du_id u ->
     code a <> generateCode draw ->
     (forall b, b ∈ sessions d -> discordId b <> du_id u -> used b = false ->
                code b <> code a) ->
     login d' now' fresh (code a) = (RenderLogin WrongCode, d', None)) /\
  (forall a now' fresh,
     a ∈ sessions d -> discordId a = du_id u ->
     (code a = generateCode draw \/
      exists b, b ∈ sessions d /\ discordId b <> du_id u /\ used b = false /\
                code b = code a) ->
     fst (fst (login d' now' fresh (code a))) = RedirectDashboard) /\
  outcome_of (RenderLogin WrongCode) = NotFound /\
  outcome_of RedirectDashboard = Success.
Proof.
  intros d'.
  assert (Hmarked : forall i a,
    sessions d !! i = Some a -> discordId a = du_id u ->
    exists a', sessions d' !! i = Some a' /\ code a' = code a /\
               discordId a' = du_id u /\ used a' = true).
  { intros i a Hl Hid.
    destruct (invalidate_lookup (du_id u) _ _ _ Hl) as (a' & Hl' & Hc & Hd & Hu & _).
    exists a'. split_and!; [|done|congruence|by apply Hu].
    subst d'. simpl. by apply lookup_app_l_Some. }
  destruct (reachable_invariant d Hreach) as [Hwf Hone].
  assert (Hkey : forall a, a ∈ sessions d ->
            Str.falsy (code a) = false /\ cleanCode (code a) = code a).
  { intros a Ha. apply list_elem_of_lookup in Ha as [i Hl].
    destruct (Forall_lookup_1 _ _ _ _ Hwf Hl) as [Hplain Hlen].
    split; [by destruct (code a)|by apply plain_cleanCode]. }
  split_and!; [exact Hmarked| | | | |reflexivity|reflexivity].
  - subst d'. rewrite issue_unused_count. by rewrite decide_True.
  - intros id. subst d'. rewrite issue_unused_count. case_decide; [lia|apply Hone].
  - intros a now' fresh Ha Hid Hnew Hother.
    destruct (Hkey a Ha) as [Hf Hc].
    unfold login. rewrite Hf, Hc.
    assert (findOne_unused (code a) (sessions d') = None) as ->; [|done].
    apply list_find_None, Forall_forall. intros b' Hb' [Hcb Hub].
    subst d'. simpl in Hb'. apply elem_of_app in Hb' as [Hb'|Hb'].
    + destruct (invalidate_unused _ _ _ Hb' Hub) as [Hb Hidb].
      by apply (Hother b' Hb Hidb Hub).
    + apply list_elem_of_singleton in Hb'. subst b'. simpl in Hcb. congruence.
  - intros a now' fresh Ha Hid Hsame.
    destruct (Hkey a Ha) as [Hf Hc].
    assert (Hfound : is_Some (findOne_unused (code a) (sessions d'))).
    { unfold findOne_unused. subst d'. simpl.
      destruct Hsame as [Hnew|(b & Hb & Hidb & Hub & Hcb)].
      - eapply (list_find_elem_of _ _
                  {| code := generateCode draw; discordId := du_id u;
                     username := du_username u; avatar := du_avatarURL u;
                     createdAt := now; used := false; usedAt := None |}).
        + apply elem_of_app. right. by apply list_elem_of_singleton.
        + by split.
      - eapply (list_find_elem_of _ _ b).
        + apply elem_of_app. left. by apply invalidate_keeps_other.
        + by split. }
    destruct Hfound as [[i s] Hfound].
    unfold login. rewrite Hf, Hc, Hfound.
    by destruct (findUser (discordId s) (users d')).
Qed.

Lemma issue_invalidates_earlier_codes_witness :
  let d' := snd secondIssue in
  map code (sessions d') = ["ABCDEF"; "BCDEFG"] /\
  login d' 2000 "u1" "ABCDEF" = (RenderLogin WrongCode, d', None).
Proof.
  split; [reflexivity|].
  assert (Hreach : reachable (snd firstIssue)).
  { eapply reachable_step; [apply reachable_empty|].
    apply (step_issue empty_db 0 (fun i => i) ann). simpl. lia. }
  destruct (issue_invalidates_earlier_codes (snd firstIssue) 1000 S ann Hreach)
    as (_ & _ & _ & H & _).
  apply (H {| code := "ABCDEF"; discordId := "d1"; username := "ann";
              avatar := "https://cdn.example/ann.png"; createdAt := 0;
              used := false; usedAt := None |} 2000%Z "u1").
  - by left.
  - reflexivity.
  - vm_compute. discriminate.
  - intros b Hb Hid. apply list_elem_of_singleton in Hb. subst b. by destruct Hid.
Defined.

(** C3, as stated, fails where the six random characters repeat: a
    second code issued for the same identity with the draws of the
    first carries the string of the first, and redeeming the earlier
    code ABCDEF succeeds.  Both commands are runs of the handler with
    draws in range. *)
Lemma issue_repeated_code_redeems :
  let d := snd firstIssue in
  let d' := snd repeatedIssue in
  (forall i, i < 6 -> (fun i => i) i < String.length chars) /\
  map code (sessions d) = ["ABCDEF"] /\
  map discordId (sessions d) = ["d1"] /\
  map code (sessions d') = ["ABCDEF"; "ABCDEF"] /\
  map used (sessions d') = [true; false] /\
  fst (fst (login d' 2000 "u1" "ABCDEF")) = RedirectDashboard /\
  fst (fst (login d' 2000 "u1" "ABCDEF")) <> RenderLogin WrongCode /\
  outcome_of (fst (fst (login d' 2000 "u1" "ABCDEF"))) = Success.
Proof.
  split_and!; try reflexivity.
  - intros i Hi. simpl. lia.
  - discriminate.
Qed.

End IssueTwice.

(** ** The entry file of a bot *)

Section EntryFile.

Import Host Demo.
Local Open Scope list_scope.

Lemma firstExisting_first t botDir pre c post :
  Fs.existsSync t (Path.join [botDir; c]) = true ->
  Forall (fun f => Fs.existsSync t (Path.join [botDir; f]) = false) pre ->
  firstExisting t botDir (pre ++ c :: post) = Some (Path.join [botDir; c]).
Proof.
  intros Hc. induction 1 as [|f pre Hf _ IH]; cbn [app firstExisting].
  - by rewrite Hc.
  - by rewrite Hf.
Qed.

Lemma firstExisting_none t botDir files :
  Forall (fun f => Fs.existsSync t (Path.join [botDir; f]) = false) files ->
  firstExisting t botDir files = None.
Proof.
  induction 1 as [|f files Hf _ IH]; cbn [firstExisting]; [done|].
  by rewrite Hf.
Qed.

Lemma filter_first (p : string -> bool) pre f post :
  p f = true -> Forall (fun g => p g = false) pre ->
  List.filter p (pre ++ f :: post) = f :: List.filter p post.
Proof.
  intros Hf. induction 1 as [|g pre Hg _ IH]; cbn [app List.filter].
  - by rewrite Hf.
  - by rewrite Hg.
Qed.

Lemma filter_none (p : string -> bool) l :
  Forall (fun g => p g = false) l -> List.filter p l = [].
Proof.
  induction 1 as [|g l Hg _ IH]; cbn [List.filter]; [done|]. by rewrite Hg.
Qed.

Lemma codeUnitLeb_refl a : Str.codeUnitLeb a a = true.
Proof.
  induction a as [|x a IH]; cbn [Str.codeUnitLeb]; [done|].
  by rewrite Nat.ltb_irrefl, Nat.eqb_refl.
Qed.

Lemma codeUnitLeb_total a b :
  Str.codeUnitLeb a b = false -> Str.codeUnitLeb b a = true.
Proof.
  revert b. induction a as [|x a IH]; intros [|y b]; cbn [Str.codeUnitLeb]; try done.
  destruct (Nat.ltb_spec (nat_of_ascii x) (nat_of_ascii y)),
           (Nat.ltb_spec (nat_of_ascii y) (nat_of_ascii x)),
           (Nat.eqb_spec (nat_of_ascii x) (nat_of_ascii y)),
           (Nat.eqb_spec (nat_of_ascii y) (nat_of_ascii x));
    try lia; try done. apply IH.
Qed.

Lemma codeUnitLeb_trans a b c :
  Str.codeUnitLeb a b = true -> Str.codeUnitLeb b c = true ->
  Str.codeUnitLeb a c = true.
Proof.
  revert b c. induction a as [|x a IH]; intros [|y b] [|z c];
    cbn [Str.codeUnitLeb]; try done.
  destruct (Nat.ltb_spec (nat_of_ascii x) (nat_of_ascii y)),
           (Nat.ltb_spec (nat_of_ascii y) (nat_of_ascii z)),
           (Nat.ltb_spec (nat_of_ascii x) (nat_of_ascii z)),
           (Nat.eqb_spec (nat_of_ascii x) (nat_of_ascii y)),
           (Nat.eqb_spec (nat_of_ascii y) (nat_of_ascii z)),
           (Nat.eqb_spec (nat_of_ascii x) (nat_of_ascii z));
    try lia; try done. apply IH.
Qed.

Lemma insertName_perm x l : Fs.insertName x l ≡ₚ x :: l.
Proof.
  induction l as [|y l IH]; cbn [Fs.insertName]; [done|].
  destruct (Str.codeUnitLeb x y); [done|].
  rewrite IH. apply perm_swap.
Qed.

Lemma sortNames_perm l : Fs.sortNames l ≡ₚ l.
Proof.
  induction l as [|x l IH]; [done|].
  cbn [Fs.sortNames foldr]. rewrite insertName_perm. by constructor.
Qed.

Lemma insertName_sorted x l :
  StronglySorted Str.codeUnitLe l ->
  StronglySorted Str.codeUnitLe (Fs.insertName x l).
Proof.
  induction 1 as [|y l Hl IH Hy]; cbn [Fs.insertName].
  - repeat constructor.
  - destruct (Str.codeUnitLeb x y) eqn:E.
    + constructor; [by constructor|].
      constructor; [exact E|].
      eapply Forall_impl; [exact Hy|]. intros z Hz.
      by apply (codeUnitLeb_trans _ y).
    + constructor; [exact IH|].
      rewrite insertName_perm. constructor; [|exact Hy].
      by apply codeUnitLeb_total.
Qed.

Lemma sortNames_sorted l : StronglySorted Str.codeUnitLe (Fs.sortNames l).
Proof.
  induction l as [|x l IH]; [constructor|].
  cbn [Fs.sortNames foldr]. by apply insertName_sorted.
Qed.

(** What [fs.readdir] returns: the names of the entries, each as often
    as it is there, in ascending order of their code units. *)
Lemma readdir_sorted t dir names :
  Fs.readdir t dir = Some names ->
  StronglySorted Str.codeUnitLe names /\
  exists es, Fs.lookup t (Path.segments dir) = Some (Fs.Dir es) /\
             names ≡ₚ map fst es.
Proof.
  unfold Fs.readdir.
  destruct (Fs.lookup t (Path.segments dir)) as [[c|es]|]; try done.
  intros [= <-]. split; [apply sortNames_sorted|].
  exists es. split; [done|apply sortNames_perm].
Qed.

(** The first element of a list with a property, and what precedes
    it. *)
Lemma filter_split (p : string -> bool) l f :
  f ∈ l -> p f = true ->
  exists pre m post,
    l = pre ++ m :: post /\ p m = true /\ Forall (fun g => p g = false) pre.
Proof.
  induction l as [|x l IH]; intros Hin Hf; [by apply elem_of_nil in Hin|].
  destruct (p x) eqn:Hx.
  - by exists [], x, l.
  - apply elem_of_cons in Hin as [->|Hin]; [congruence|].
    destruct (IH Hin Hf) as (pre & m & post & -> & Hm & Hpre).
    exists (x :: pre), m, post. split_and!; [done|done|by constructor].
Qed.

Lemma sorted_first_least (p : string -> bool) pre m post g :
  StronglySorted Str.codeUnitLe (pre ++ m :: post) ->
  Forall (fun g => p g = false) pre ->
  g ∈ pre ++ m :: post -> p g = true -> Str.codeUnitLe m g.
Proof.
  intros Hs Hpre Hg Hpg.
  apply elem_of_app in Hg as [Hg|Hg].
  - rewrite Forall_forall in Hpre. specialize (Hpre g Hg). congruence.
  - apply elem_of_cons in Hg as [->|Hg]; [apply codeUnitLeb_refl|].
    induction pre as [|x pre IH].
    + apply StronglySorted_inv in Hs as [_ Hm].
      rewrite Forall_forall in Hm. by apply Hm.
    + apply StronglySorted_inv in Hs as [Hs _].
      apply IH; [exact Hs|by inversion Hpre].
Qed.

Lemma findMainFile_listed t botDir :
  Forall (fun f => Fs.existsSync t (Path.join [botDir; f]) = false) possibleFiles ->
  findMainFile t botDir = listedMain t botDir.
Proof.
  intros Hnone. unfold findMainFile, listedMain.
  by rewrite (firstExisting_none _ _ _ Hnone).
Qed.

(** Where every entry of the directory with a name in ".js" is a file,
    the two readings of the fallback agree. *)
Lemma findMainFile_firstFile_files t botDir :
  (forall names f, Fs.readdir t botDir = Some names -> f ∈ names ->
     Str.endsWith ".js" f = true -> isFile t (Path.join [botDir; f]) = true) ->
  findMainFile t botDir = findMainFile_firstFile t botDir.
Proof.
  intros Hfiles. unfold findMainFile, findMainFile_firstFile.
  destruct (firstExisting t botDir possibleFiles); [done|].
  destruct (Fs.readdir t botDir) as [names|] eqn:Hr; [|done].
  rewrite (List.filter_ext_in (Str.endsWith ".js")
             (fun f => Str.endsWith ".js" f && isFile t (Path.join [botDir; f])) names);
    [done|].
  intros f Hf. destruct (Str.endsWith ".js" f) eqn:E; [|done].
  cbn [andb]. symmetry. apply (Hfiles names f eq_refl); [|exact E].
  by apply list_elem_of_In.
Qed.

(** C5, as amended. [findMainFile] returns the first of index.js,
    app.js, main.js, bot.js (in this order) that exists in the bot's
    directory.  When none exists it looks at the listing of the
    directory, which holds the names of the entries in ascending order
    of their code units, and returns the first name of it that ends in
    ".js": the least such name of the directory, be the entry a file or
    a directory.  When the directory cannot be listed or has no such
    name, it returns nothing, and a start request is answered "main
    file not found" (EntryNotFound) with the state unchanged. *)
Theorem findMainFile_resolution (t : Fs.node) (botDir : string) :
  (forall pre c post,
     possibleFiles = pre ++ c :: post ->
     Fs.existsSync t (Path.join [botDir; c]) = true ->
     Forall (fun f => Fs.existsSync t (Path.join [botDir; f]) = false) pre ->
     findMainFile t botDir = Some (Path.join [botDir; c])) /\
  (Forall (fun f => Fs.existsSync t (Path.join [botDir; f]) = false) possibleFiles ->
   (forall names,
      Fs.readdir t botDir = Some names ->
      StronglySorted Str.codeUnitLe names /\
      (exists es, Fs.lookup t (Path.segments botDir) = Some (Fs.Dir es) /\
                  names ≡ₚ map fst es) /\
      (forall pre f post,
         names = pre ++ f :: post ->
         Str.endsWith ".js" f = true ->
         Forall (fun g => Str.endsWith ".js" g = false) pre ->
         findMainFile t botDir = Some (Path.join [botDir; f])) /\
      (forall f,
         f ∈ names -> Str.endsWith ".js" f = true ->
         exists m,
           findMainFile t botDir = Some (Path.join [botDir; m]) /\
           m ∈ names /\ Str.endsWith ".js" m = true /\
           forall g, g ∈ names -> Str.endsWith ".js" g = true ->
                     Str.codeUnitLe m g)) /\
   ((Fs.readdir t botDir = None \/
     exists files, Fs.readdir t botDir = Some files /\
                   Forall (fun g => Str.endsWith ".js" g = false) files) ->
    findMainFile t botDir = None /\
    forall st sess now os id i bot,
      fs st = t -> path bot = botDir ->
      findBot id (Auth.userId sess) (bots st) = Some (i, bot) ->
      botProcesses st !! id = None ->
      startRoute st sess now os id = Reply (Json 200 false MainFileNotFound) st /\
      outcome_of (Json 200 false MainFileNotFound) = EntryNotFound)).
Proof.
  split.
  - intros pre c post Hp Hc Hpre. unfold findMainFile.
    by rewrite Hp, (firstExisting_first _ _ _ _ _ Hc Hpre).
  - intros Hnone. split.
    + intros names Hr.
      destruct (readdir_sorted _ _ _ Hr) as [Hs Hes].
      assert (Hfirst : forall pre f post,
                 names = pre ++ f :: post ->
                 Str.endsWith ".js" f = true ->
                 Forall (fun g => Str.endsWith ".js" g = false) pre ->
                 findMainFile t botDir = Some (Path.join [botDir; f])).
      { intros pre f post -> Hf Hpre.
        rewrite (findMainFile_listed _ _ Hnone). unfold listedMain.
        by rewrite Hr, (filter_first _ _ _ _ Hf Hpre). }
      split_and!; [exact Hs|exact Hes|exact Hfirst|].
      intros f Hin Hf.
      destruct (filter_split (Str.endsWith ".js") names f Hin Hf)
        as (pre & m & post & Hn & Hm & Hpre).
      exists m. split_and!.
      * by apply (Hfirst pre m post).
      * rewrite Hn. apply elem_of_app. right. apply elem_of_cons. by left.
      * exact Hm.
      * intros g Hg Hpg. rewrite Hn in Hs, Hg.
        by apply (sorted_first_least (Str.endsWith ".js") pre m post g).
    + intros Hno.
      assert (Hm : findMainFile t botDir = None).
      { unfold findMainFile. rewrite (firstExisting_none _ _ _ Hnone).
        destruct Hno as [->|(files & -> & Hfiles)]; [done|].
        by rewrite (filter_none _ _ Hfiles). }
      split; [exact Hm|].
      intros st sess now os id i bot Ht Hb Hfind Hidle.
      destruct (findBot_Some _ _ _ _ _ Hfind) as (_ & Hid & _).
      unfold startRoute. by rewrite Hfind, Hid, Hidle, Ht, Hb, Hm.
Qed.

Lemma findMainFile_resolution_witness :
  findMainFile demoFiles "/srv/bots/u1/hello" = Some "/srv/bots/u1/hello/index.js" /\
  Fs.readdir unsortedFiles "/srv/bots/u1/hello" = Some ["a.js"; "z.js"] /\
  findMainFile unsortedFiles "/srv/bots/u1/hello" = Some "/srv/bots/u1/hello/a.js".
Proof.
  split_and!.
  - apply (proj1 (findMainFile_resolution demoFiles "/srv/bots/u1/hello")
             [] "index.js" ["app.js"; "main.js"; "bot.js"]).
    + reflexivity.
    + reflexivity.
    + constructor.
  - reflexivity.
  - apply (proj1 (proj2 (proj2 (proj1
             (proj2 (findMainFile_resolution unsortedFiles "/srv/bots/u1/hello")
                ltac:(repeat constructor))
             ["a.js"; "z.js"] eq_refl)))
             [] "a.js" ["z.js"]).
    + reflexivity.
    + reflexivity.
    + constructor.
Defined.

(** C5, as stated, fails where an entry with a name in ".js" is a
    directory: with the directory a.js and the file b.js,
    [findMainFile] returns the directory a.js (and the start request
    runs [node] on it), where the first file of the sorted enumeration
    with the extension ".js" is b.js. *)
Lemma findMainFile_returns_directory :
  Fs.readdir folderFiles "/srv/bots/u1/hello" = Some ["a.js"; "b.js"] /\
  findMainFile folderFiles "/srv/bots/u1/hello" = Some "/srv/bots/u1/hello/a.js" /\
  Fs.stat folderFiles "/srv/bots/u1/hello/a.js"
  = Some {| Fs.isDirectory := true; Fs.size := 0 |} /\
  findMainFile_firstFile folderFiles "/srv/bots/u1/hello"
  = Some "/srv/bots/u1/hello/b.js" /\
  findMainFile folderFiles "/srv/bots/u1/hello"
  <> findMainFile_firstFile folderFiles "/srv/bots/u1/hello" /\
  (exists st', startRoute folderState demoSession 10 (Spawned 4711) "b1"
               = Reply (Json 200 true Started) st' /\
               map mainFile (spawned st') = ["/srv/bots/u1/hello/a.js"]).
Proof.
  split_and!; try reflexivity.
  - vm_compute. discriminate.
  - eexists. split; reflexivity.
Qed.

End EntryFile.

(** ** The listing of a directory *)

Section ListingOrder.

Import Host Demo.
Local Open Scope Z_scope.

Variable localeCompare : string -> string -> Z.

(** The comparison of names is consistent: it orders any two names one
    way or the other, and transitively. *)
Hypothesis localeCompare_total :
  forall a b, 0 < localeCompare a b -> localeCompare b a <= 0.
Hypothesis localeCompare_trans :
  forall a b c,
    localeCompare a b <= 0 -> localeCompare b c <= 0 -> localeCompare a c <= 0.

Lemma before_total a b :
  ~ before localeCompare a b -> before localeCompare b a.
Proof.
  unfold before, compareEntries.
  destruct (is_directory a), (is_directory b); simpl; try lia.
  all: intros H; apply localeCompare_total; lia.
Qed.

Lemma before_trans a b c :
  before localeCompare a b -> before localeCompare b c ->
  before localeCompare a c.
Proof.
  unfold before, compareEntries.
  destruct (is_directory a), (is_directory b), (is_directory c); simpl;
    try lia; apply localeCompare_trans.
Qed.

Lemma insertSorted_perm x l : insertSorted localeCompare x l ≡ₚ x :: l.
Proof.
  induction l as [|y l IH]; cbn [insertSorted]; [done|].
  destruct (compareEntries localeCompare x y <=? 0); [done|].
  rewrite IH. apply perm_swap.
Qed.

Lemma sortEntries_perm l : sortEntries localeCompare l ≡ₚ l.
Proof.
  induction l as [|x l IH]; [done|].
  cbn [sortEntries foldr]. rewrite insertSorted_perm. by constructor.
Qed.

Lemma insertSorted_sorted x l :
  StronglySorted (before localeCompare) l ->
  StronglySorted (before localeCompare) (insertSorted localeCompare x l).
Proof.
  induction 1 as [|y l Hl IH Hy]; cbn [insertSorted].
  - repeat constructor.
  - destruct (compareEntries localeCompare x y <=? 0) eqn:E.
    + apply Z.leb_le in E. constructor; [by constructor|].
      constructor; [exact E|].
      eapply Forall_impl; [exact Hy|]. intros z Hz.
      by apply (before_trans _ y).
    + apply Z.leb_gt in E. constructor; [exact IH|].
      rewrite insertSorted_perm. constructor; [|exact Hy].
      apply before_total. unfold before. lia.
Qed.

Lemma sortEntries_sorted l :
  StronglySorted (before localeCompare) (sortEntries localeCompare l).
Proof.
  induction l as [|x l IH]; [constructor|].
  cbn [sortEntries foldr]. by apply insertSorted_sorted.
Qed.

Lemma StronglySorted_pair (l : list Entry) i j a b :
  StronglySorted (before localeCompare) l ->
  (i < j)%nat -> l !! i = Some a -> l !! j = Some b -> before localeCompare a b.
Proof.
  intros Hs. revert i j. induction Hs as [|x l Hl IH Hx]; intros i j Hij Hi Hj.
  - done.
  - destruct j as [|j]; [lia|]. destruct i as [|i].
    + injection Hi as <-. eapply Forall_lookup_1; [exact Hx|exact Hj].
    + apply (IH i j); [lia|done..].
Qed.

(** What [before] says of two entries. *)
Lemma before_order a b :
  before localeCompare a b ->
  (is_directory b = true -> is_directory a = true) /\
  (e_type a = e_type b -> localeCompare (e_name a) (e_name b) <= 0).
Proof.
  unfold before, compareEntries, is_directory.
  destruct (e_type a), (e_type b); simpl; intros H; split; try done; lia.
Qed.

(** C6. The listing holds the entries of the directory's own children
    that are not skipped, ordered: a directory never comes after a
    file, and of two entries of the same kind the earlier one is not
    greater by name (in the order of [localeCompare]).  A directory
    with the file b.txt and the directory a is listed as a, then
    b.txt. *)
Theorem listing_is_ordered (t : Fs.node) (dir : string) :
  let listing := fst (getDirectoryStructure localeCompare t dir) in
  (forall items,
     Fs.existsSync t dir = true -> Fs.readdir t dir = Some items ->
     listing ≡ₚ omap (entryOf t dir) items) /\
  (forall i j a b,
     (i < j)%nat -> listing !! i = Some a -> listing !! j = Some b ->
     (is_directory b = true -> is_directory a = true) /\
     (e_type a = e_type b -> localeCompare (e_name a) (e_name b) <= 0)) /\
  map (fun e => (e_name e, e_type e))
    (fst (getDirectoryStructure localeCompare listedFiles "/srv/bots/u1/hello"))
  = [("a", directory); ("b.txt", file)].
Proof.
  intros listing. split_and!.
  - intros items He Hr. subst listing. unfold getDirectoryStructure.
    rewrite He, Hr. simpl. apply sortEntries_perm.
  - intros i j a b Hij Hi Hj. apply before_order.
    apply (StronglySorted_pair listing i j); try done.
    subst listing. unfold getDirectoryStructure.
    destruct (negb (Fs.existsSync t dir)).
    + destruct (Fs.ensureDir t dir); constructor.
    + destruct (Fs.readdir t dir); [apply sortEntries_sorted|constructor].
  - reflexivity.
Qed.

End ListingOrder.

Section ListingSample.

Import Host Demo.
Local Open Scope Z_scope.

Lemma codeUnitCompare_flip a b : codeUnitCompare b a = - codeUnitCompare a b.
Proof.
  revert b. induction a as [|x a IH]; intros [|y b]; cbn [codeUnitCompare]; try done.
  rewrite IH.
  destruct (Z.eqb_spec (Z.of_nat (nat_of_ascii x) - Z.of_nat (nat_of_ascii y)) 0),
           (Z.eqb_spec (Z.of_nat (nat_of_ascii y) - Z.of_nat (nat_of_ascii x)) 0);
    lia.
Qed.

Lemma codeUnitCompare_total a b :
  0 < codeUnitCompare a b -> codeUnitCompare b a <= 0.
Proof. rewrite codeUnitCompare_flip. lia. Qed.

Lemma codeUnitCompare_trans a b c :
  codeUnitCompare a b <= 0 -> codeUnitCompare b c <= 0 -> codeUnitCompare a c <= 0.
Proof.
  revert b c. induction a as [|x a IH]; intros [|y b] [|z c];
    cbn [codeUnitCompare]; try lia.
  destruct (Z.eqb_spec (Z.of_nat (nat_of_ascii x) - Z.of_nat (nat_of_ascii y)) 0),
           (Z.eqb_spec (Z.of_nat (nat_of_ascii y) - Z.of_nat (nat_of_ascii z)) 0),
           (Z.eqb_spec (Z.of_nat (nat_of_ascii x) - Z.of_nat (nat_of_ascii z)) 0);
    try lia.
  apply IH.
Qed.

Lemma listing_is_ordered_witness :
  map (fun e => (e_name e, e_type e))
    (fst (getDirectoryStructure codeUnitCompare unsortedFiles "/srv/bots/u1/hello"))
  = [("a.js", file); ("z.js", file)] /\
  forall i j a b,
    (i < j)%nat ->
    fst (getDirectoryStructure codeUnitCompare unsortedFiles "/srv/bots/u1/hello")
      !! i = Some a ->
    fst (getDirectoryStructure codeUnitCompare unsortedFiles "/srv/bots/u1/hello")
      !! j = Some b ->
    (is_directory b = true -> is_directory a = true) /\
    (e_type a = e_type b -> codeUnitCompare (e_name a) (e_name b) <= 0).
Proof.
  split; [reflexivity|].
  apply (listing_is_ordered codeUnitCompare codeUnitCompare_total
           codeUnitCompare_trans unsortedFiles "/srv/bots/u1/hello").
Defined.

End ListingSample.

(** ** Reading and writing a bot's files *)

Section Files.

Import Host Demo.
Local Open Scope list_scope.

Lemma lookup_entry_set_entry s x y es :
  Fs.lookup_entry s es = Some y ->
  Fs.lookup_entry s (Fs.set_entry s x es) = Some x.
Proof.
  induction es as [|[n z] es IH]; cbn [Fs.lookup_entry Fs.set_entry]; [done|].
  destruct (String.eqb n s) eqn:E; cbn [Fs.lookup_entry]; rewrite E; [done|exact IH].
Qed.

Lemma lookup_entry_app_new s x es :
  Fs.lookup_entry s es = None ->
  Fs.lookup_entry s (es ++ [(s, x)]) = Some x.
Proof.
  induction es as [|[n z] es IH]; cbn [Fs.lookup_entry app].
  - by rewrite String.eqb_refl.
  - destruct (String.eqb n s); [done|exact IH].
Qed.

(** A file that was written is found where it was written. *)
Lemma write_lookup segs : forall t t' content,
  Fs.write t segs content = Some t' ->
  Fs.lookup t' segs = Some (Fs.File content).
Proof.
  induction segs as [|s rest IH]; intros t t' content; [done|].
  cbn [Fs.write]. destruct t as [c|es]; [done|].
  destruct rest as [|s' rest].
  - destruct (Fs.lookup_entry s es) as [[c|es']|] eqn:E; [|done|];
      intros [= <-]; cbn [Fs.lookup].
    + by rewrite (lookup_entry_set_entry _ _ _ _ E).
    + by rewrite (lookup_entry_app_new _ _ _ E).
  - destruct (Fs.lookup_entry s es) as [child|] eqn:E; [|done].
    destruct (Fs.write child (s' :: rest) content) as [child'|] eqn:W; [|done].
    intros [= <-]. cbn [Fs.lookup].
    rewrite (lookup_entry_set_entry _ _ _ _ E). by apply (IH child).
Qed.

Lemma writeFile_readFile t p content t' :
  Fs.writeFile t p content = Some t' ->
  Fs.readFile t' p = Some content /\ Fs.existsSync t' p = true.
Proof.
  unfold Fs.writeFile, Fs.readFile, Fs.existsSync.
  intros H%write_lookup. by rewrite H.
Qed.

(** C1, as amended. The read and write routes resolve the relative path
    with [path.join(bot.path, filePath)] and go to the file system with
    the result, whatever it is; there is no test that it lies under the
    bot's directory.  When the file system takes the write, the route
    answers success and the content is stored at the joined path, where
    the read route then finds it; when it does not, the answer is the
    write failure.  Reading answers "file not found" when nothing
    exists at the joined path and the content when a file does.  No
    path is answered with a ValidationError. *)
Theorem file_routes_follow_join
    (st : state) (sess : Auth.WebSession) (id filePath content : string)
    (i : nat) (bot : Bot)
    (Hfound : findBot id (Auth.userId sess) (bots st) = Some (i, bot)) :
  let fullPath := Path.join [path bot; filePath] in
  (forall t,
     Fs.writeFile (fs st) fullPath content = Some t ->
     writeRoute st sess id filePath content = (Json 200 true FileSaved, with_fs st t) /\
     Fs.readFile t fullPath = Some content /\
     readRoute (with_fs st t) sess id filePath = FileContent content) /\
  (Fs.writeFile (fs st) fullPath content = None ->
   writeRoute st sess id filePath content = (Json 500 false WriteFailed, st)) /\
  (Fs.existsSync (fs st) fullPath = false ->
   readRoute st sess id filePath = Json 404 false FileNotFound) /\
  (forall c,
     Fs.readFile (fs st) fullPath = Some c ->
     readRoute st sess id filePath = FileContent c) /\
  outcome_of (readRoute st sess id filePath) <> ValidationError /\
  outcome_of (fst (writeRoute st sess id filePath content)) <> ValidationError.
Proof.
  intros fullPath. split_and!.
  - intros t Hw. destruct (writeFile_readFile _ _ _ _ Hw) as [Hr He].
    split_and!; [|done|].
    + unfold writeRoute. rewrite Hfound. fold fullPath. by rewrite Hw.
    + unfold readRoute. simpl. rewrite Hfound. fold fullPath. by rewrite He, Hr.
  - intros Hw. unfold writeRoute. rewrite Hfound. fold fullPath. by rewrite Hw.
  - intros He. unfold readRoute. rewrite Hfound. fold fullPath. by rewrite He.
  - intros c Hr. unfold readRoute. rewrite Hfound. fold fullPath.
    assert (Fs.existsSync (fs st) fullPath = true) as ->.
    { unfold Fs.existsSync. unfold Fs.readFile in Hr.
      by destruct (Fs.lookup (fs st) (Path.segments fullPath)). }
    by rewrite Hr.
  - unfold readRoute. rewrite Hfound. fold fullPath.
    destruct (Fs.existsSync (fs st) fullPath); [|done].
    by destruct (Fs.readFile (fs st) fullPath).
  - unfold writeRoute. rewrite Hfound. fold fullPath.
    by destruct (Fs.writeFile (fs st) fullPath content).
Qed.

Lemma file_routes_follow_join_witness :
  writeRoute demoState demoSession "b1" "lib.js" "exports.x = 1"
  = (Json 200 true FileSaved,
     with_fs demoState
       (Fs.Dir [("srv", Fs.Dir [("bots", Fs.Dir [("u1", Fs.Dir
          [("hello", Fs.Dir [("index.js", Fs.File "console.log('hi')");
                             ("lib.js", Fs.File "exports.x = 1")])])])])])).
Proof.
  apply (file_routes_follow_join demoState demoSession "b1" "lib.js"
           "exports.x = 1" 0 demoBot); reflexivity.
Defined.

(** C1, as stated, fails: for the bot directory /srv/bots/u1/hello the
    relative path ../../secret is joined to /srv/bots/secret, outside
    the directory; the write route answers success and creates that
    file, and the read route returns its content. *)
Lemma file_routes_escape_root :
  Path.join [path demoBot; "../../secret"] = "/srv/bots/secret" /\
  Path.inside (path demoBot) "/srv/bots/secret" = false /\
  Fs.existsSync (fs demoState) "/srv/bots/secret" = false /\
  (exists st',
     writeRoute demoState demoSession "b1" "../../secret" "stolen"
     = (Json 200 true FileSaved, st') /\
     outcome_of (Json 200 true FileSaved) <> ValidationError /\
     Fs.readFile (fs st') "/srv/bots/secret" = Some "stolen" /\
     readRoute st' demoSession "b1" "../../secret" = FileContent "stolen" /\
     outcome_of (readRoute st' demoSession "b1" "../../secret") <> ValidationError).
Proof.
  split_and!; try reflexivity.
  eexists. split_and!; try reflexivity; discriminate.
Qed.

End Files.

(** * Further properties of the handlers *)

(** ** Codes: their shape, their single use, the accounts they open *)

Section Codes.

Import Auth Demo.
Local Open Scope list_scope.

Lemma get_In n : forall s c,
  String.get n s = Some c -> In c (list_ascii_of_string s).
Proof.
  induction n as [|n IH]; intros [|x s] c; simpl; try done.
  - intros [= ->]. by left.
  - intros H. right. by apply IH.
Qed.

Lemma list_ascii_append s1 s2 :
  list_ascii_of_string (s1 ++ s2)%string
  = list_ascii_of_string s1 ++ list_ascii_of_string s2.
Proof.
  induction s1 as [|c s1 IH]; [done|].
  change (c :: list_ascii_of_string (s1 ++ s2)%string
          = c :: list_ascii_of_string s1 ++ list_ascii_of_string s2).
  by rewrite IH.
Qed.

Lemma charAt_In s n c :
  In c (list_ascii_of_string (Str.charAt s n)) -> In c (list_ascii_of_string s).
Proof.
  unfold Str.charAt. destruct (String.get n s) as [x|] eqn:E; simpl; [|done].
  intros [<-|[]]. by eapply get_In.
Qed.

Lemma generateCode_chars draw c :
  In c (list_ascii_of_string (generateCode draw)) ->
  In c (list_ascii_of_string chars).
Proof.
  unfold generateCode. cbn [seq fold_left].
  rewrite !list_ascii_append. simpl (list_ascii_of_string EmptyString).
  rewrite !in_app_iff. intros H.
  repeat (destruct H as [H|H]); try done; by eapply charAt_In.
Qed.

(** X1. With every draw in range, [generateCode] returns six characters,
    each taken from [chars] and none of them I, O, 0 or 1; the code is
    not empty and is left as it is by the trimming and upper-casing of
    POST /login. *)
Theorem generateCode_shape (draw : nat -> nat)
    (Hdraw : forall i, i < 6 -> draw i < String.length chars) :
  String.length (generateCode draw) = 6 /\
  (forall c, In c (list_ascii_of_string (generateCode draw)) ->
             In c (list_ascii_of_string chars) /\ ~ In c ambiguous) /\
  Str.falsy (generateCode draw) = false /\
  cleanCode (generateCode draw) = generateCode draw.
Proof.
  destruct (generateCode_well_formed draw Hdraw) as [Hplain Hlen].
  split_and!.
  - exact Hlen.
  - intros c Hc%generateCode_chars. split; [exact Hc|].
    revert c Hc. apply (proj1 (List.Forall_forall _ _)).
    repeat (constructor; [vm_compute; intuition discriminate|]). constructor.
  - by destruct (generateCode draw).
  - by apply plain_cleanCode.
Qed.

Lemma generateCode_shape_witness :
  generateCode (fun i => 31 - i) = "987654" /\
  cleanCode (generateCode (fun i => 31 - i)) = generateCode (fun i => 31 - i).
Proof.
  split; [reflexivity|].
  apply (generateCode_shape (fun i => 31 - i)). simpl. lia.
Defined.

End Codes.

(** ** Codes as they are typed *)

Section AnyInput.

Import Auth Demo.
Local Open Scope list_scope.

Context {J : Type} `{EqDecision J}.
Variable text : string -> J.
Variables trim toUpperCase : J -> J.

(** What the two library functions are known to do: neither makes
    anything of the empty string, [toUpperCase] empties no string, each
    of them does nothing the second time, and white space is stripped
    as well before as after the upper-casing.  Different codes are
    different strings. *)
Hypothesis text_inj : forall a b, text a = text b -> a = b.
Hypothesis trim_of_empty : trim (text EmptyString) = text EmptyString.
Hypothesis upper_of_empty : toUpperCase (text EmptyString) = text EmptyString.
Hypothesis upper_not_empty :
  forall s, toUpperCase s = text EmptyString -> s = text EmptyString.
Hypothesis trim_twice : forall s, trim (trim s) = trim s.
Hypothesis upper_twice : forall s, toUpperCase (toUpperCase s) = toUpperCase s.
Hypothesis trim_of_upper : forall s, trim (toUpperCase s) = toUpperCase (trim s).

Lemma cleanCodeWith_twice s :
  cleanCodeWith trim toUpperCase (cleanCodeWith trim toUpperCase s)
  = cleanCodeWith trim toUpperCase s.
Proof.
  unfold cleanCodeWith.
  by rewrite <- trim_of_upper, upper_twice, trim_of_upper, trim_twice.
Qed.

Lemma cleanCodeWith_normalized s :
  cleanCodeWith trim toUpperCase (normalizedWith trim toUpperCase s)
  = cleanCodeWith trim toUpperCase s.
Proof.
  unfold normalizedWith. rewrite trim_of_upper. apply cleanCodeWith_twice.
Qed.

Lemma falsyWith_false (s : J) : s <> text EmptyString -> falsyWith text s = false.
Proof. intros Hs. unfold falsyWith. by apply bool_decide_eq_false_2. Qed.

(** Two inputs that are not empty and come to the same clean code are
    answered alike. *)
Lemma loginWith_same_code d now fresh (s1 s2 : J) :
  s1 <> text EmptyString -> s2 <> text EmptyString ->
  cleanCodeWith trim toUpperCase s1 = cleanCodeWith trim toUpperCase s2 ->
  loginWith text trim toUpperCase d now fresh s1
  = loginWith text trim toUpperCase d now fresh s2.
Proof.
  intros H1 H2 Hc. unfold loginWith.
  by rewrite (falsyWith_false _ H1), (falsyWith_false _ H2), Hc.
Qed.

Lemma loginWith_found d now fresh (s : J) a :
  s <> text EmptyString ->
  a ∈ sessions d -> text (code a) = cleanCodeWith trim toUpperCase s ->
  used a = false ->
  fst (fst (loginWith text trim toUpperCase d now fresh s)) = RedirectDashboard.
Proof.
  intros Hs Ha Hc Hu. unfold loginWith. rewrite (falsyWith_false _ Hs).
  destruct (list_find_elem_of
              (fun a => text (code a) = cleanCodeWith trim toUpperCase s /\
                        used a = false) (sessions d) a Ha (conj Hc Hu))
    as [[i b] Hfind].
  unfold findOne_unusedWith. rewrite Hfind.
  by destruct (findUser (discordId b) (users d)).
Qed.

(** C8, as amended. For an input that is empty or keeps a character
    when it is trimmed, POST /login answers the input as it answers its
    normal form [trim(uppercase(input))], with the same state left.
    So every rendering of an issued code that trimming and
    upper-casing bring back to the code is redeemed, as the code
    itself is.  The code AB12CD of the example is one that
    [generateCode] never makes (its alphabet has no 1); where the
    collection holds it unused, " ab12cd " and "AB12CD" are answered
    alike, with success. *)
Theorem login_normalizes
    (d : db) (now : Z) (fresh : string) (input : J)
    (Hinput : trim input = text EmptyString -> input = text EmptyString) :
  loginWith text trim toUpperCase d now fresh input
  = loginWith text trim toUpperCase d now fresh
      (normalizedWith trim toUpperCase input) /\
  (forall issued draw u (typed : J),
     (forall i, i < 6 -> draw i < String.length chars) ->
     cleanCodeWith trim toUpperCase typed = text (generateCode draw) ->
     let d' := snd (handleVerificationCommand d issued draw u) in
     loginWith text trim toUpperCase d' now fresh typed
     = loginWith text trim toUpperCase d' now fresh (text (generateCode draw)) /\
     fst (fst (loginWith text trim toUpperCase d' now fresh typed))
     = RedirectDashboard) /\
  (forall a,
     a ∈ sessions d -> code a = "AB12CD" -> used a = false ->
     login d now fresh " ab12cd " = login d now fresh "AB12CD" /\
     fst (fst (login d now fresh "AB12CD")) = RedirectDashboard) /\
  (forall draw, generateCode draw <> "AB12CD").
Proof.
  split_and!.
  - destruct (decide (input = text EmptyString)) as [->|Hne].
    + unfold normalizedWith. by rewrite upper_of_empty, trim_of_empty.
    + apply loginWith_same_code; [exact Hne| |by rewrite cleanCodeWith_normalized].
      unfold normalizedWith. rewrite trim_of_upper.
      intros He. apply upper_not_empty in He. by apply Hne, Hinput.
  - intros issued draw u typed Hdraw Hclean d'.
    destruct (generateCode_well_formed draw Hdraw) as [_ Hlen].
    assert (Hcode : text (generateCode draw) <> text EmptyString).
    { intros He. apply text_inj in He. by rewrite He in Hlen. }
    assert (Htyped : typed <> text EmptyString).
    { intros ->. apply Hcode. rewrite <- Hclean. unfold cleanCodeWith.
      by rewrite trim_of_empty, upper_of_empty. }
    split.
    + apply loginWith_same_code; [exact Htyped|exact Hcode|].
      by rewrite <- Hclean, cleanCodeWith_twice.
    + apply (loginWith_found _ _ _ _
               {| code := generateCode draw; discordId := du_id u;
                  username := du_username u; avatar := du_avatarURL u;
                  createdAt := issued; used := false; usedAt := None |});
        [exact Htyped| |by rewrite Hclean|done].
      subst d'. simpl. apply elem_of_app. right. by apply list_elem_of_singleton.
  - intros a Ha Hc Hu. split; [reflexivity|].
    unfold login.
    change (Str.falsy "AB12CD") with false.
    change (cleanCode "AB12CD") with "AB12CD". cbv iota.
    destruct (list_find_elem_of (fun a => code a = "AB12CD" /\ used a = false)
                (sessions d) a Ha (conj Hc Hu)) as [[i b] Hfind].
    unfold findOne_unused. rewrite Hfind.
    by destruct (findUser (discordId b) (users d)).
  - intros draw He.
    assert (Hin : In "1"%char (list_ascii_of_string (generateCode draw))).
    { rewrite He. simpl. tauto. }
    apply generateCode_chars in Hin. vm_compute in Hin. intuition discriminate.
Qed.

End AnyInput.

Section TypedCode.

Import Auth Demo.

(** With [string] for the strings of JavaScript and the functions of
    [Str], the handler on any input is [login]. *)
Lemma login_loginWith d now fresh input :
  login d now fresh input
  = loginWith (fun s => s) Str.trim Str.toUpperCase d now fresh input.
Proof.
  unfold login, loginWith, falsyWith.
  destruct input as [|c input]; [done|].
  rewrite bool_decide_eq_false_2 by done. reflexivity.
Qed.

Lemma login_normalizes_witness :
  loginWith (fun s => s) Str.trim Str.toUpperCase (snd firstIssue) 1000 "u1" " abcdef "
  = loginWith (fun s => s) Str.trim Str.toUpperCase (snd firstIssue) 1000 "u1" "ABCDEF" /\
  fst (fst (login (snd firstIssue) 1000 "u1" " abcdef ")) = RedirectDashboard.
Proof.
  split; [|reflexivity].
  refine (proj1 (login_normalizes (fun s : string => s) Str.trim Str.toUpperCase
                   _ _ _ _ _ _ _ (snd firstIssue) 1000 "u1" " abcdef " _)).
  - by intros a b ->.
  - reflexivity.
  - reflexivity.
  - by intros [|c s].
  - apply trim_idem.
  - apply toUpperCase_idem.
  - apply trim_upper.
  - vm_compute. discriminate.
Defined.

End TypedCode.

Section Redemption.

Import Auth Demo.
Local Open Scope list_scope.

(** What a successful POST /login has done. *)
Lemma login_success d now fresh input d' ws :
  login d now fresh input = (RedirectDashboard, d', ws) ->
  Str.falsy input = false /\
  exists i a,
    findOne_unused (cleanCode input) (sessions d) = Some (i, a) /\
    sessions d' = <[i := redeemed now a]> (sessions d) /\
    exists user,
      ws = Some {| userId := user_id user; ws_discordId := user_discordId user;
                   ws_username := user_username user; tier := user_tier user |} /\
      user_discordId user = discordId a /\
      ((findUser (discordId a) (users d) = Some user /\ users d' = users d) \/
       (findUser (discordId a) (users d) = None /\
        user = {| user_id := fresh; user_discordId := discordId a;
                  user_username := username a; user_avatar := avatar a;
                  user_tier := "free" |} /\
        users d' = users d ++ [user])).
Proof.
  unfold login. destruct (Str.falsy input); [done|].
  destruct (findOne_unused (cleanCode input) (sessions d)) as [[i a]|]; [|done].
  destruct (findUser (discordId a) (users d)) as [user|] eqn:Hu.
  - intros [= <- <-]. split; [done|]. exists i, a. split; [done|].
    split; [done|]. exists user. split; [done|]. split; [|by left].
    unfold findUser in Hu. apply fmap_Some in Hu as ([j x] & Hx & ->).
    apply list_find_Some in Hx. tauto.
  - intros [= <- <-]. split; [done|]. exists i, a. split; [done|].
    split; [done|].
    exists {| user_id := fresh; user_discordId := discordId a;
              user_username := username a; user_avatar := avatar a;
              user_tier := "free" |}.
    split; [done|]. split; [done|]. right. by split_and!.
Qed.

Lemma invalidate_no_unused id l c :
  (forall a, a ∈ l -> used a = false -> code a <> c) ->
  list_find (fun a => code a = c /\ used a = false) (invalidate id l) = None.
Proof.
  intros H. apply list_find_None, Forall_forall.
  intros b [a [-> Ha]]%list_elem_of_fmap [Hc Hu].
  destruct (decide (discordId a = id /\ used a = false)); [done|].
  by apply (H a).
Qed.

(** X2. A code that has just been issued is redeemed by POST /login:
    when the draws are in range and no unused document already carries
    the same six characters, the login succeeds, the web session is the
    one of the identity the code was issued to, the document is marked
    used with the time of the login, and the identity is left without
    unused code.  A first login creates the account, with tier "free"
    and the identifier the database gives it. *)
Theorem issued_code_redeems
    (d : db) (now now' : Z) (draw : nat -> nat) (u : DiscordUser) (fresh : string)
    (Hdraw : forall i, i < 6 -> draw i < String.length chars)
    (Hnew : forall a, a ∈ sessions d -> used a = false -> code a <> generateCode draw) :
  let embed := fst (handleVerificationCommand d now draw u) in
  let d1 := snd (handleVerificationCommand d now draw u) in
  exists d2 ws,
    login d1 now' fresh (embed_code embed) = (RedirectDashboard, d2, Some ws) /\
    ws_discordId ws = du_id u /\
    (exists a, last (sessions d2) = Some a /\
               code a = embed_code embed /\ discordId a = du_id u /\
               used a = true /\ usedAt a = Some now' /\ createdAt a = now) /\
    unused_for (du_id u) (sessions d2) = 0 /\
    (findUser (du_id u) (users d) = None ->
     userId ws = fresh /\ ws_username ws = du_username u /\ tier ws = "free" /\
     length (users d2) = S (length (users d))).
Proof.
  intros embed d1.
  destruct (generateCode_well_formed draw Hdraw) as [Hplain Hlen].
  set (c := generateCode draw) in *.
  set (doc := {| code := c; discordId := du_id u; username := du_username u;
                 avatar := du_avatarURL u; createdAt := now; used := false;
                 usedAt := None |}).
  assert (Hfind : findOne_unused c (sessions d1)
                  = Some (length (invalidate (du_id u) (sessions d)), doc)).
  { unfold findOne_unused. subst d1. cbn [handleVerificationCommand snd sessions].
    rewrite list_find_app_r by (by apply invalidate_no_unused).
    simpl. by rewrite decide_True. }
  assert (Hlogin : exists d2 ws,
    login d1 now' fresh c = (RedirectDashboard, d2, Some ws)).
  { unfold login. rewrite (plain_cleanCode _ Hplain), Hfind.
    assert (Str.falsy c = false) as -> by (by destruct c).
    destruct (findUser (discordId doc) (users d1)); eauto. }
  destruct Hlogin as (d2 & ws & Hlogin). exists d2, ws.
  destruct (login_success _ _ _ _ _ _ Hlogin)
    as (_ & i & a & Hf & Hs & user & [= ->] & Hu & Hcase).
  rewrite (plain_cleanCode _ Hplain), Hfind in Hf. injection Hf as <- <-.
  assert (Hs2 : sessions d2
                = invalidate (du_id u) (sessions d) ++ [redeemed now' doc]).
  { rewrite Hs. subst d1. cbn [handleVerificationCommand snd sessions].
    rewrite <- (Nat.add_0_r (length _)). by rewrite insert_app_r. }
  split_and!; [exact Hlogin|exact Hu| | |].
  - exists (redeemed now' doc). rewrite Hs2, last_snoc. by split_and!.
  - rewrite Hs2, unused_for_app, unused_for_invalidate_same.
    unfold unused_for. by rewrite filter_cons_False by (simpl; intros [_ [=]]).
  - intros Hnone. destruct Hcase as [[Hsome _]|(_ & -> & Hus)].
    + subst d1. simpl in Hsome. congruence.
    + split_and!; try done. rewrite Hus, length_app. subst d1. simpl. lia.
Qed.

Lemma issued_code_redeems_witness :
  exists d2 ws,
    login (snd firstIssue) 1000 "u1" "ABCDEF" = (RedirectDashboard, d2, Some ws) /\
    ws_discordId ws = "d1".
Proof.
  destruct (issued_code_redeems empty_db 0 1000 (fun i => i) ann "u1")
    as (d2 & ws & H1 & H2 & _).
  - simpl. lia.
  - intros a Ha. by apply elem_of_nil in Ha.
  - exists d2, ws. split; [exact H1|exact H2].
Defined.

(** X3. A code is good for one login: after a successful POST /login, a
    second request with the same input is answered "wrong code" and
    changes nothing, provided no other unused document carries the same
    code string. *)
Theorem login_single_use
    (d : db) (now : Z) (fresh input : string) (d' : db) (ws : option WebSession)
    (Hok : login d now fresh input = (RedirectDashboard, d', ws))
    (Hdistinct : unused_codes_distinct (sessions d)) :
  forall now' fresh',
    login d' now' fresh' input = (RenderLogin WrongCode, d', None).
Proof.
  intros now' fresh'.
  destruct (login_success _ _ _ _ _ _ Hok) as (Hfalsy & i & a & Hf & Hs & _).
  apply findOne_unused_Some in Hf as (Hl & Hc & Hu).
  unfold login. rewrite Hfalsy.
  assert (findOne_unused (cleanCode input) (sessions d') = None) as ->; [|done].
  apply list_find_None, Forall_lookup. intros j b Hb [Hcb Hub].
  rewrite Hs in Hb. apply list_lookup_insert_Some in Hb as [(-> & <- & _)|[Hne Hb]].
  - done.
  - apply Hne. apply (Hdistinct i j a b); congruence.
Qed.

Lemma login_single_use_witness :
  let d' := snd (fst (login (snd firstIssue) 1000 "u1" "abcdef")) in
  login d' 2000 "u2" "abcdef" = (RenderLogin WrongCode, d', None).
Proof.
  apply (login_single_use (snd firstIssue) 1000 "u1" "abcdef" _
           (snd (login (snd firstIssue) 1000 "u1" "abcdef"))).
  - reflexivity.
  - intros [|[|i]] [|[|j]] a b Ha Hb; simpl in Ha, Hb; done.
Defined.

End Redemption.

Section Accounts.

Import Auth Demo.
Local Open Scope list_scope.

(** A login that is turned away changes nothing. *)
Lemma login_failure d now fresh input e d' ws :
  login d now fresh input = (RenderLogin e, d', ws) -> d' = d /\ ws = None.
Proof.
  unfold login. destruct (Str.falsy input); [by intros [= _ <- <-]|].
  destruct (findOne_unused (cleanCode input) (sessions d)) as [[i a]|];
    [|by intros [= _ <- <-]].
  by destruct (findUser (discordId a) (users d)).
Qed.





(** X5. Neither handler removes a code document or changes its code
    string, its identity or its time of issue, and a document that is
    used is never changed again: a used code stays used. *)
Theorem code_documents_persist (d d' : db) (Hstep : step d d') :
  length (sessions d) <= length (sessions d') /\
  forall i a,
    sessions d !! i = Some a ->
    exists a',
      sessions d' !! i = Some a' /\
      code a' = code a /\ discordId a' = discordId a /\
      createdAt a' = createdAt a /\
      (used a = true -> a' = a).
Proof.
  destruct Hstep as [d now draw u Hdraw|d now fresh input].
  - split.
    + simpl. rewrite length_app. unfold invalidate. rewrite length_map. lia.
    + intros i a Hl. simpl.
      exists (if decide (discordId a = du_id u /\ used a = false)
              then mark_used a else a).
      split.
      * apply lookup_app_l_Some. unfold invalidate.
        by rewrite list_lookup_fmap, Hl.
      * destruct (decide (discordId a = du_id u /\ used a = false)) as [[_ H]|];
          split_and!; try done. congruence.
  - destruct (login d now fresh input) as [[r d'] ws] eqn:E. simpl.
    destruct r as [e|].
    { apply login_failure in E as [-> _]. split; [done|].
      intros i a Hl. exists a. by split_and!. }
    destruct (login_success _ _ _ _ _ _ E) as (_ & j & b & Hf & -> & _).
    apply findOne_unused_Some in Hf as (Hj & _ & Hub).
    split; [by rewrite length_insert|]. intros i a Hl.
    destruct (decide (i = j)) as [->|Hne].
    + exists (redeemed now b).
      rewrite list_lookup_insert_eq by (by eapply lookup_lt_Some).
      assert (a = b) as -> by congruence.
      split_and!; try done. congruence.
    + exists a. rewrite list_lookup_insert_ne by done. by split_and!.
Qed.

Lemma code_documents_persist_witness :
  let d := snd (fst (login (snd firstIssue) 1000 "u1" "ABCDEF")) in
  let d' := snd (handleVerificationCommand d 2000 S ann) in
  map (fun a => (code a, used a, usedAt a)) (sessions d')
  = [("ABCDEF", true, Some 1000%Z); ("BCDEFG", false, None)] /\
  length (sessions d) <= length (sessions d').
Proof.
  split; [reflexivity|].
  apply (code_documents_persist
           (snd (fst (login (snd firstIssue) 1000 "u1" "ABCDEF")))
           (snd (handleVerificationCommand
                   (snd (fst (login (snd firstIssue) 1000 "u1" "ABCDEF")))
                   2000 S ann))).
  apply step_issue. simpl. lia.
Defined.

End Accounts.

(** ** The table of processes and the documents *)

Section Consistency.

Import Host Manage Demo.
Local Open Scope list_scope.

Implicit Types (l : list Bot) (st : state).






Lemma files_only_with_fs st t : files_only st (with_fs st t).
Proof. by split_and!. Qed.











End Consistency.

(** ** Stopping, restarting and deleting a bot *)

Section Lifecycle.

Import Host Manage Demo.
Local Open Scope list_scope.

(** X7. Stopping a bot that has a process sends SIGTERM to that process
    and to no other, takes the bot out of [botProcesses] at once, and
    stores "stopped" with the time of the request; the files are not
    touched.  A later start request does not answer "already running":
    with an entry file in place it starts a new process in the bot's
    directory and records it. *)
Theorem stop_then_start_again
    (st : state) (sess : Auth.WebSession) (now : Z) (id : string)
    (i : nat) (bot : Bot) (p : nat) (main : string)
    (Hfound : findBot id (Auth.userId sess) (bots st) = Some (i, bot))
    (Hlive : botProcesses st !! id = Some p)
    (Hmain : findMainFile (fs st) (path bot) = Some main) :
  exists st',
    stopRoute st sess now id = (Json 200 true Stopped, st') /\
    killed st' = killed st ++ [p] /\
    botProcesses st' = delete id (botProcesses st) /\
    (exists bot', findBot id (Auth.userId sess) (bots st') = Some (i, bot') /\
                  status bot' = stopped /\ lastStopped bot' = Some now) /\
    fs st' = fs st /\ spawned st' = spawned st /\
    forall now2 p2,
      exists st'',
        startRoute st' sess now2 (Spawned p2) id = Reply (Json 200 true Started) st'' /\
        botProcesses st'' !! id = Some p2 /\
        spawned st'' = spawned st ++ [{| pid := p2; mainFile := main; cwd := path bot |}] /\
        (exists bot'', findBot id (Auth.userId sess) (bots st'') = Some (i, bot'') /\
                       status bot'' = running /\ lastStarted bot'' = Some now2).
Proof.
  destruct (findBot_Some _ _ _ _ _ Hfound) as (Hl & Hid & Hown).
  unfold stopRoute. rewrite Hfound, Hid, Hlive.
  cbn [killed botProcesses fs spawned with_bots bots].
  eexists. split; [reflexivity|]. cbn [killed botProcesses fs spawned with_bots bots].
  assert (Hf' : findBot id (Auth.userId sess) (<[i := halted now bot]> (bots st))
                = Some (i, halted now bot))
    by (by apply (findBot_insert _ _ _ _ bot)).
  split_and!; try done.
  - by exists (halted now bot).
  - intros now2 p2. unfold startRoute.
    cbn [bots botProcesses fs spawned killed with_bots].
    rewrite Hf'. cbn [bot_id halted path]. rewrite Hid, lookup_delete_eq, Hmain.
    eexists. split; [reflexivity|]. cbn [botProcesses spawned bots].
    split_and!.
    + by rewrite lookup_insert_eq.
    + done.
    + exists (started now2 (halted now bot)). split; [|done].
      by apply (findBot_insert _ _ _ _ (halted now bot)).
Qed.

Lemma stop_then_start_again_witness :
  exists st',
    stopRoute runningState demoSession 30 "b1" = (Json 200 true Stopped, st') /\
    killed st' = [4711] /\
    exists st'',
      startRoute st' demoSession 40 (Spawned 4800) "b1"
      = Reply (Json 200 true Started) st'' /\
      botProcesses st'' !! "b1" = Some 4800.
Proof.
  destruct (stop_then_start_again runningState demoSession 30 "b1" 0
              (started 10 demoBot) 4711 "/srv/bots/u1/hello/index.js")
    as (st' & Hs & Hk & _ & _ & _ & _ & Hagain); try reflexivity.
  exists st'. split; [exact Hs|]. split; [exact Hk|].
  destruct (Hagain 40%Z 4800) as (st'' & H1 & H2 & _). by exists st''.
Defined.

Lemma findBot_id_None id userId l :
  id ∉ bot_id <$> l -> findBot id userId l = None.
Proof.
  intros H. apply list_find_None, Forall_forall. intros b Hb [Hid _].
  apply H. apply list_elem_of_fmap. by exists b.
Qed.

Lemma NoDup_delete_lookup (l : list string) j x :
  NoDup l -> l !! j = Some x -> x ∉ delete j l.
Proof.
  intros Hnd Hj [k Hk]%list_elem_of_lookup.
  destruct (decide (k < j)) as [Hlt|Hge].
  - rewrite list_lookup_delete_lt in Hk by done.
    pose proof (NoDup_lookup _ _ _ _ Hnd Hj Hk). lia.
  - rewrite list_lookup_delete_ge in Hk by lia.
    pose proof (NoDup_lookup _ _ _ _ Hnd Hj Hk). lia.
Qed.

Lemma countBots_delete userId l j b :
  l !! j = Some b ->
  countBots userId l
  = countBots userId (delete j l) + (if decide (owner b = userId) then 1 else 0).
Proof.
  intros Hj. unfold countBots.
  rewrite <- (take_drop_middle l j b Hj) at 1.
  rewrite delete_take_drop, !filter_app, !length_app, filter_cons.
  destruct (decide (owner b = userId)); simpl; lia.
Qed.

(** X8. Deleting a bot takes its document out of the collection and its
    entry out of [botProcesses], sends SIGTERM to its process if it has
    one, and leaves every other document as it was.  The owner then has
    one bot less, so a quota that was reached is free again. *)
Theorem delete_bot_frees_the_slot
    (st : state) (sess : Auth.WebSession) (id : string) (i : nat) (bot : Bot)
    (Hfound : findBot id (Auth.userId sess) (bots st) = Some (i, bot))
    (Hids : NoDup (bot_id <$> bots st)) :
  exists st',
    deleteBotRoute st sess id = (Answer 200 true BotDeleted, st') /\
    (forall userId, findBot id userId (bots st') = None) /\
    botProcesses st' !! id = None /\
    (forall k, k <> id -> botProcesses st' !! k = botProcesses st !! k) /\
    killed st' = killed st ++ match botProcesses st !! id with
                              | Some p => [p]
                              | None => []
                              end /\
    bots st' = delete i (bots st) /\
    (forall b, b ∈ bots st -> bot_id b <> id -> b ∈ bots st') /\
    S (countBots (Auth.userId sess) (bots st')) = countBots (Auth.userId sess) (bots st) /\
    (forall userId, userId <> Auth.userId sess ->
                    countBots userId (bots st') = countBots userId (bots st)).
Proof.
  destruct (findBot_Some _ _ _ _ _ Hfound) as (Hl & Hid & Hown).
  unfold deleteBotRoute. rewrite Hfound, Hid.
  assert (Hj : list_find (fun b => bot_id b = id) (bots st) = Some (i, bot)).
  { apply list_find_Some. split_and!; try done.
    intros j y Hy Hlt Hyid.
    assert (i = j); [|lia].
    eapply (NoDup_lookup _ _ _ id Hids);
      rewrite list_lookup_fmap; [rewrite Hl|rewrite Hy]; simpl; congruence. }
  unfold findByIdAndDelete. rewrite Hj.
  eexists. split; [reflexivity|]. cbn [bots botProcesses killed].
  split_and!.
  - intros userId. apply findBot_id_None. rewrite list_fmap_delete.
    apply NoDup_delete_lookup; [done|]. by rewrite list_lookup_fmap, Hl, <- Hid.
  - by rewrite lookup_delete_eq.
  - intros k Hk. by rewrite lookup_delete_ne.
  - destruct (botProcesses st !! id); [done|]. by rewrite app_nil_r.
  - done.
  - intros b [k Hk]%list_elem_of_lookup Hne.
    assert (k <> i) by (intros ->; congruence).
    apply list_elem_of_lookup.
    destruct (decide (k < i)).
    + exists k. by rewrite list_lookup_delete_lt.
    + exists (pred k). rewrite list_lookup_delete_ge by lia.
      by replace (S (pred k)) with k by lia.
  - rewrite (countBots_delete _ _ i bot Hl). rewrite decide_True by done. lia.
  - intros userId Hu. rewrite (countBots_delete userId _ i bot Hl).
    rewrite decide_False by congruence. lia.
Qed.

Lemma delete_bot_frees_the_slot_witness :
  exists st',
    deleteBotRoute runningState demoSession "b1" = (Answer 200 true BotDeleted, st') /\
    bots st' = [] /\ killed st' = [4711] /\
    fst (createRoute st' demoSession "/srv" 50 "b2" "second" "console.log(2)" None)
    = Json 200 true (BotCreated "b2").
Proof.
  destruct (delete_bot_frees_the_slot runningState demoSession "b1" 0
              (started 10 demoBot))
    as (st' & Hd & _ & _ & _ & Hk & Hb & _).
  - reflexivity.
  - apply (bool_decide_unpack _). vm_compute. exact I.
  - exists st'. split; [exact Hd|]. split; [exact Hb|]. split; [exact Hk|].
    assert (Hst : st' = snd (deleteBotRoute runningState demoSession "b1"))
      by (by rewrite Hd).
    rewrite Hst. reflexivity.
Defined.

End Lifecycle.

(** ** Files: what a write, a removal and a listing leave *)

Section Tree.

Local Open Scope list_scope.

Lemma lookup_entry_set_entry_ne s s' x es :
  s' <> s -> Fs.lookup_entry s' (Fs.set_entry s x es) = Fs.lookup_entry s' es.
Proof.
  intros Hne. induction es as [|[n y] es IH]; cbn [Fs.set_entry Fs.lookup_entry]; [done|].
  destruct (String.eqb_spec n s) as [->|Hn]; cbn [Fs.lookup_entry].
  - by rewrite (proj2 (String.eqb_neq s s')).
  - by rewrite IH.
Qed.

Lemma lookup_entry_app_ne s s' x es :
  s' <> s -> Fs.lookup_entry s' (es ++ [(s, x)]) = Fs.lookup_entry s' es.
Proof.
  intros Hne. induction es as [|[n y] es IH]; cbn [app Fs.lookup_entry].
  - by rewrite (proj2 (String.eqb_neq s s')).
  - by rewrite IH.
Qed.

Lemma set_entry_set_entry s x y es :
  Fs.set_entry s y (Fs.set_entry s x es) = Fs.set_entry s y es.
Proof.
  induction es as [|[n z] es IH]; cbn [Fs.set_entry]; [done|].
  destruct (String.eqb n s) eqn:E; cbn [Fs.set_entry]; rewrite E; [done|].
  by rewrite IH.
Qed.

Lemma set_entry_app_new s x y es :
  Fs.lookup_entry s es = None ->
  Fs.set_entry s y (es ++ [(s, x)]) = es ++ [(s, y)].
Proof.
  induction es as [|[n z] es IH]; cbn [app Fs.set_entry Fs.lookup_entry].
  - by rewrite String.eqb_refl.
  - destruct (String.eqb n s); [done|]. intros H. by rewrite IH.
Qed.

Lemma shape_nil t : exists k, Fs.shape t [] = Some k.
Proof. unfold Fs.shape. simpl. destruct t; eauto. Qed.

Lemma shape_file c s q : Fs.shape (Fs.File c) (s :: q) = None.
Proof. reflexivity. Qed.

Lemma shape_cons es s q :
  Fs.shape (Fs.Dir es) (s :: q)
  = match Fs.lookup_entry s es with
    | Some child => Fs.shape child q
    | None => None
    end.
Proof. unfold Fs.shape. simpl. by destruct (Fs.lookup_entry s es). Qed.

Lemma write_root t s rest content t' :
  Fs.write t (s :: rest) content = Some t' -> exists es es', t = Fs.Dir es /\ t' = Fs.Dir es'.
Proof.
  cbn [Fs.write]. destruct t as [c|es]; [done|]. intros H. exists es.
  destruct rest as [|r rs].
  - destruct (Fs.lookup_entry s es) as [[c|es']|]; [|done|];
      injection H as <-; eauto.
  - destruct (Fs.lookup_entry s es) as [child|]; [|done].
    destruct (Fs.write child (r :: rs) content); [|done].
    injection H as <-; eauto.
Qed.

(** A write changes what stands at the path written and nowhere else. *)
Lemma write_shape_other segs : forall t t' content q,
  Fs.write t segs content = Some t' -> q <> segs ->
  Fs.shape t' q = Fs.shape t q.
Proof.
  induction segs as [|s rest IH]; intros t t' content q; [done|].
  destruct q as [|s' q'].
  { intros (es & es' & -> & ->)%write_root _. reflexivity. }
  cbn [Fs.write]. destruct t as [c|es]; [done|].
  destruct rest as [|r rs].
  - destruct (Fs.lookup_entry s es) as [[c|es']|] eqn:E; [|done|];
      intros [= <-] Hne; rewrite !shape_cons;
      destruct (String.eqb_spec s' s) as [->|Hs].
    + rewrite (lookup_entry_set_entry _ _ _ _ E), E.
      destruct q'; [congruence|done].
    + by rewrite lookup_entry_set_entry_ne.
    + rewrite (lookup_entry_app_new _ _ _ E), E.
      destruct q'; [congruence|done].
    + by rewrite lookup_entry_app_ne.
  - destruct (Fs.lookup_entry s es) as [child|] eqn:E; [|done].
    destruct (Fs.write child (r :: rs) content) as [child'|] eqn:W; [|done].
    intros [= <-] Hne. rewrite !shape_cons.
    destruct (String.eqb_spec s' s) as [->|Hs].
    + rewrite (lookup_entry_set_entry _ _ _ _ E), E.
      apply (IH child child' content); [done|congruence].
    + by rewrite lookup_entry_set_entry_ne.
Qed.

Lemma write_below es s r rs content :
  Fs.write (Fs.Dir es) (s :: r :: rs) content
  = match Fs.lookup_entry s es with
    | Some child =>
        match Fs.write child (r :: rs) content with
        | Some child' => Some (Fs.Dir (Fs.set_entry s child' es))
        | None => None
        end
    | None => None
    end.
Proof. reflexivity. Qed.

(** A second write at the same path leaves what the second alone would
    have left. *)
Lemma write_write segs : forall t t1 c1 c2,
  Fs.write t segs c1 = Some t1 ->
  Fs.write t1 segs c2 = Fs.write t segs c2.
Proof.
  induction segs as [|s rest IH]; intros t t1 c1 c2; [done|].
  destruct t as [c|es]; [done|].
  destruct rest as [|r rs].
  - cbn [Fs.write].
    destruct (Fs.lookup_entry s es) as [[c|es']|] eqn:E; [|done|];
      intros [= <-]; cbn [Fs.write].
    + by rewrite (lookup_entry_set_entry _ _ _ _ E), set_entry_set_entry.
    + by rewrite (lookup_entry_app_new _ _ _ E), set_entry_app_new.
  - rewrite (write_below es s r rs c1), (write_below es s r rs c2).
    destruct (Fs.lookup_entry s es) as [child|] eqn:E; [|done].
    destruct (Fs.write child (r :: rs) c1) as [child1|] eqn:W; [|done].
    intros [= <-]. rewrite write_below.
    rewrite (lookup_entry_set_entry _ _ _ _ E), (IH child child1 c1 c2 W).
    destruct (Fs.write child (r :: rs) c2); [|done].
    by rewrite set_entry_set_entry.
Qed.

(** Whether a write is taken does not depend on the content. *)
Lemma write_any_content segs : forall t t1 c1 c2,
  Fs.write t segs c1 = Some t1 -> exists t2, Fs.write t segs c2 = Some t2.
Proof.
  induction segs as [|s rest IH]; intros t t1 c1 c2; [done|].
  destruct t as [c|es]; [done|].
  destruct rest as [|r rs].
  - cbn [Fs.write]. destruct (Fs.lookup_entry s es) as [[c|es']|]; [|done|]; eauto.
  - rewrite (write_below es s r rs c1), (write_below es s r rs c2).
    destruct (Fs.lookup_entry s es) as [child|]; [|done].
    destruct (Fs.write child (r :: rs) c1) as [child1|] eqn:W; [|done].
    destruct (IH child child1 c1 c2 W) as [child2 ->]. eauto.
Qed.

Lemma mem_lookup_entry s es :
  Fs.mem s (map fst es) = false -> Fs.lookup_entry s es = None.
Proof.
  induction es as [|[n x] es IH]; cbn [map fst Fs.mem Fs.lookup_entry]; [done|].
  destruct (String.eqb n s); [done|exact IH].
Qed.

Lemma distinct_remove_entry s es :
  Fs.distinct (map fst es) = true ->
  Fs.lookup_entry s (Fs.remove_entry s es) = None.
Proof.
  induction es as [|[n x] es IH];
    cbn [map fst Fs.distinct Fs.remove_entry]; [done|].
  intros [Hm Hd]%andb_true_iff.
  destruct (String.eqb_spec n s) as [->|Hn].
  - apply mem_lookup_entry. by destruct (Fs.mem s (map fst es)).
  - cbn [Fs.lookup_entry]. rewrite (proj2 (String.eqb_neq n s)) by done. by apply IH.
Qed.

Lemma wf_Dir es :
  Fs.wf (Fs.Dir es) = true ->
  Fs.distinct (map fst es) = true /\
  forall s child, Fs.lookup_entry s es = Some child -> Fs.wf child = true.
Proof.
  cbn [Fs.wf]. intros [Hd Hall]%andb_true_iff. split; [done|].
  clear Hd. induction es as [|[n x] es IH]; cbn [Fs.lookup_entry]; [done|].
  apply andb_true_iff in Hall as [Hx Hall]. intros s child.
  destruct (String.eqb n s); [by intros [= <-]|by apply IH].
Qed.

(** In a well-formed tree nothing stands at a path that was removed. *)
Lemma remove_lookup segs : forall t,
  segs <> [] -> Fs.wf t = true -> Fs.lookup (Fs.remove t segs) segs = None.
Proof.
  induction segs as [|s rest IH]; intros t Hne Hwf; [done|].
  cbn [Fs.remove]. destruct t as [c|es]; [done|].
  destruct (wf_Dir es Hwf) as [Hd Hchild].
  destruct rest as [|r rs].
  - cbn [Fs.lookup]. by rewrite distinct_remove_entry.
  - destruct (Fs.lookup_entry s es) as [child|] eqn:E.
    + cbn [Fs.lookup]. rewrite (lookup_entry_set_entry _ _ _ _ E).
      apply IH; [done|by eapply Hchild].
    + cbn [Fs.lookup]. by rewrite E.
Qed.

(** A directory that [ensureDir] had to make is empty. *)
Lemma mkdirs_new segs : forall t t',
  Fs.lookup t segs = None -> Fs.mkdirs t segs = Some t' ->
  Fs.lookup t' segs = Some (Fs.Dir []).
Proof.
  induction segs as [|s rest IH]; intros t t'; [done|].
  cbn [Fs.lookup Fs.mkdirs]. destruct t as [c|es]; [done|].
  destruct (Fs.lookup_entry s es) as [child|] eqn:E.
  - intros Hl. destruct (Fs.mkdirs child rest) as [child'|] eqn:M; [|done].
    intros [= <-]. cbn [Fs.lookup]. rewrite (lookup_entry_set_entry _ _ _ _ E).
    by apply (IH child).
  - intros _. destruct (Fs.mkdirs (Fs.Dir []) rest) as [child'|] eqn:M; [|done].
    intros [= <-]. cbn [Fs.lookup]. rewrite (lookup_entry_app_new _ _ _ E).
    destruct rest as [|r rs].
    + simpl in M. by injection M as <-.
    + by apply (IH (Fs.Dir [])).
Qed.

End Tree.

Section FileRoutes.

Import Host Manage Demo.
Local Open Scope list_scope.

Lemma readFile_shape t p :
  Fs.readFile t p
  = match Fs.shape t (Path.segments p) with Some (Some c) => Some c | _ => None end.
Proof.
  unfold Fs.readFile, Fs.shape.
  by destruct (Fs.lookup t (Path.segments p)) as [[]|].
Qed.

Lemma existsSync_shape t p :
  Fs.existsSync t p
  = match Fs.shape t (Path.segments p) with Some _ => true | None => false end.
Proof.
  unfold Fs.existsSync, Fs.shape.
  by destruct (Fs.lookup t (Path.segments p)) as [[]|].
Qed.

(** X9. A write through POST /bot/:id/file changes the answer of the read
    route for the path written only: for any request whose joined path
    names another place, GET /bot/:id/file answers after the write as it
    did before. *)
Theorem write_leaves_other_paths
    (st : state) (sess : Auth.WebSession) (id filePath content : string)
    (sess2 : Auth.WebSession) (id2 filePath2 : string)
    (Hother : forall i bot j bot2,
       findBot id (Auth.userId sess) (bots st) = Some (i, bot) ->
       findBot id2 (Auth.userId sess2) (bots st) = Some (j, bot2) ->
       Path.segments (Path.join [path bot2; filePath2])
       <> Path.segments (Path.join [path bot; filePath])) :
  readRoute (snd (writeRoute st sess id filePath content)) sess2 id2 filePath2
  = readRoute st sess2 id2 filePath2.
Proof.
  unfold writeRoute.
  destruct (findBot id (Auth.userId sess) (bots st)) as [[i bot]|] eqn:Hf; [|done].
  destruct (Fs.writeFile (fs st) _ content) as [t|] eqn:Hw; [|done].
  unfold readRoute. cbn [snd with_fs bots fs].
  destruct (findBot id2 (Auth.userId sess2) (bots st)) as [[j bot2]|] eqn:Hf2; [|done].
  specialize (Hother i bot j bot2 eq_refl eq_refl).
  rewrite !existsSync_shape, !readFile_shape.
  by rewrite (write_shape_other _ _ _ _ _ Hw Hother).
Qed.

Lemma write_leaves_other_paths_witness :
  readRoute (snd (writeRoute demoState demoSession "b1" "lib.js" "exports.x = 1"))
    demoSession "b1" "index.js"
  = FileContent "console.log('hi')".
Proof.
  rewrite (write_leaves_other_paths demoState demoSession "b1" "lib.js"
             "exports.x = 1" demoSession "b1" "index.js").
  - reflexivity.
  - intros i bot j bot2 [= <- <-] [= <- <-]. vm_compute. discriminate.
Defined.

(** X10. The last writer wins: two writes to the same path of a bot, one
    after the other, leave the reply and the state of the second write
    alone. *)
Theorem last_write_wins
    (st : state) (sess : Auth.WebSession) (id filePath c1 c2 : string) :
  writeRoute (snd (writeRoute st sess id filePath c1)) sess id filePath c2
  = writeRoute st sess id filePath c2.
Proof.
  unfold writeRoute at 2.
  destruct (findBot id (Auth.userId sess) (bots st)) as [[i bot]|] eqn:Hf; [|done].
  destruct (Fs.writeFile (fs st) _ c1) as [t|] eqn:Hw; [|done].
  unfold writeRoute. cbn [snd with_fs bots fs]. rewrite Hf.
  unfold Fs.writeFile in *. rewrite (write_write _ _ _ _ _ Hw).
  by destruct (write_any_content _ _ _ _ c2 Hw) as [t2 ->].
Qed.

Lemma lookup_below t segs more :
  Fs.lookup t segs = None -> Fs.lookup t (segs ++ more) = None.
Proof.
  revert t. induction segs as [|s rest IH]; intros t; [done|].
  cbn [app Fs.lookup]. destruct t as [c|es]; [done|].
  destruct (Fs.lookup_entry s es); [apply IH|done].
Qed.

Lemma is_prefix_app l1 l2 :
  Path.is_prefix l1 l2 = true -> exists more, l2 = l1 ++ more.
Proof.
  revert l2. induction l1 as [|a l1 IH]; intros l2; [by exists l2|].
  destruct l2 as [|b l2]; [done|]. cbn [Path.is_prefix].
  intros [Hab H]%andb_true_iff. apply String.eqb_eq in Hab as ->.
  destruct (IH _ H) as [more ->]. by exists more.
Qed.

(** X11. DELETE /bot/:id/file answers 404 and changes nothing when
    nothing exists at the joined path.  When something does (in a tree
    where no directory lists a name twice, the path not being the root),
    it answers success, and afterwards nothing exists at that path or
    below it: the read route and a second delete both answer 404.  The
    documents and the processes are not touched. *)
Theorem delete_file_then_gone
    (st : state) (sess : Auth.WebSession) (id filePath : string)
    (i : nat) (bot : Bot)
    (Hfound : findBot id (Auth.userId sess) (bots st) = Some (i, bot))
    (Hwf : Fs.wf (fs st) = true)
    (Hpath : Path.segments (Path.join [path bot; filePath]) <> []) :
  let fullPath := Path.join [path bot; filePath] in
  (Fs.existsSync (fs st) fullPath = false ->
   deleteFileRoute st sess id filePath = (Answer 404 false FileMissing, st)) /\
  (Fs.existsSync (fs st) fullPath = true ->
   exists st',
     deleteFileRoute st sess id filePath = (Answer 200 true FileDeleted, st') /\
     files_only st st' /\
     (forall p, Path.is_prefix (Path.segments fullPath) (Path.segments p) = true ->
                Fs.existsSync (fs st') p = false) /\
     readRoute st' sess id filePath = Json 404 false FileNotFound /\
     deleteFileRoute st' sess id filePath = (Answer 404 false FileMissing, st')).
Proof.
  intros fullPath. unfold deleteFileRoute. rewrite Hfound. fold fullPath. split.
  - by intros ->.
  - intros ->. cbn [negb]. eexists. split; [reflexivity|].
    assert (Hgone : forall p,
      Path.is_prefix (Path.segments fullPath) (Path.segments p) = true ->
      Fs.existsSync (with_fs st (Fs.remove_path (fs st) fullPath)).(fs) p = false).
    { intros p [more Hp]%is_prefix_app. unfold Fs.existsSync. cbn [with_fs fs].
      rewrite Hp, lookup_below; [done|]. by apply remove_lookup. }
    assert (Hself : Fs.existsSync
              (with_fs st (Fs.remove_path (fs st) fullPath)).(fs) fullPath = false).
    { apply Hgone. clear. induction (Path.segments fullPath) as [|a l IH]; [done|].
      cbn [Path.is_prefix]. by rewrite String.eqb_refl. }
    split_and!.
    + apply files_only_with_fs.
    + exact Hgone.
    + unfold readRoute. cbn [with_fs bots]. rewrite Hfound. fold fullPath.
      by rewrite Hself.
    + cbn [with_fs bots]. rewrite Hfound. fold fullPath. by rewrite Hself.
Qed.

Lemma delete_file_then_gone_witness :
  exists st',
    deleteFileRoute demoState demoSession "b1" "index.js"
    = (Answer 200 true FileDeleted, st') /\
    readRoute st' demoSession "b1" "index.js" = Json 404 false FileNotFound.
Proof.
  destruct (delete_file_then_gone demoState demoSession "b1" "index.js" 0 demoBot)
    as [_ H]; try reflexivity.
  - vm_compute. discriminate.
  - destruct H as (st' & Hd & _ & _ & Hr & _); [reflexivity|].
    exists st'. by split.
Defined.

End FileRoutes.

Section ListingEntries.

Import Host Manage Demo.
Local Open Scope list_scope.

Lemma entryOf_Some t dir item e :
  entryOf t dir item = Some e ->
  e_name e = item /\ e_path e = item /\
  item <> "node_modules" /\ Str.startsWith "." item = false /\
  match e_type e with
  | directory =>
      e_size e = 0 /\ e_extension e = EmptyString /\
      Fs.shape t (Path.segments (Path.join [dir; item])) = Some None
  | file =>
      e_extension e = Str.toLowerCase (Path.extname item) /\
      exists c, Fs.readFile t (Path.join [dir; item]) = Some c /\
                e_size e = String.length c
  end.
Proof.
  unfold entryOf, skipped.
  destruct (String.eqb_spec item "node_modules") as [->|Hn]; [done|].
  destruct (Str.startsWith "." item); [done|]. cbn [orb].
  unfold Fs.stat, Fs.readFile, Fs.shape.
  destruct (Fs.lookup t (Path.segments (Path.join [dir; item]))) as [[c|es]|];
    [| |done]; intros [= <-]; cbn; split_and!; try done.
  by exists c.
Qed.

(** X12. Every entry of a listing comes from a name [fs.readdir] gave
    for the directory; it is never node_modules and never a name that
    begins with a dot, and its path is its name.  A directory is listed
    with size 0 and no extension; a file with the length of its content
    and the lower-cased extension of its name. *)
Theorem listing_entries
    (localeCompare : string -> string -> Z) (t : Fs.node) (dir : string) (e : Entry)
    (He : e ∈ fst (getDirectoryStructure localeCompare t dir)) :
  (exists items, Fs.readdir t dir = Some items /\ e_name e ∈ items) /\
  e_name e <> "node_modules" /\
  Str.startsWith "." (e_name e) = false /\
  e_path e = e_name e /\
  match e_type e with
  | directory =>
      e_size e = 0 /\ e_extension e = EmptyString /\
      Fs.shape t (Path.segments (Path.join [dir; e_name e])) = Some None
  | file =>
      e_extension e = Str.toLowerCase (Path.extname (e_name e)) /\
      exists c, Fs.readFile t (Path.join [dir; e_name e]) = Some c /\
                e_size e = String.length c
  end.
Proof.
  unfold getDirectoryStructure in He.
  destruct (negb (Fs.existsSync t dir)).
  { destruct (Fs.ensureDir t dir); by apply elem_of_nil in He. }
  destruct (Fs.readdir t dir) as [items|] eqn:Hr; [|by apply elem_of_nil in He].
  cbn [fst] in He. rewrite sortEntries_perm in He.
  apply list_elem_of_omap in He as (item & Hi & He).
  destruct (entryOf_Some _ _ _ _ He) as (Hn & Hp & Hnm & Hdot & Hkind).
  rewrite Hn. split_and!; try done.
  exists items. by split.
Qed.

Lemma listing_entries_witness :
  exists c, Fs.readFile hiddenFiles (Path.join ["/srv/bots/u1/hello"; "Bot.JS"]) = Some c /\
            5 = String.length c.
Proof.
  destruct (listing_entries codeUnitCompare hiddenFiles "/srv/bots/u1/hello"
              {| e_name := "Bot.JS"; e_path := "Bot.JS"; e_type := file;
                 e_size := 5; e_extension := ".js" |})
    as (_ & _ & _ & _ & _ & H).
  - apply list_elem_of_lookup. exists 1. reflexivity.
  - exact H.
Defined.

(** X13. Listing a directory that does not exist creates it (when the
    file system lets it) and returns no entry; the directory then exists
    and is empty, and listing it again returns no entry and changes
    nothing. *)
Theorem listing_creates_missing_directory
    (localeCompare : string -> string -> Z) (t t' : Fs.node) (dir : string)
    (Hmissing : Fs.existsSync t dir = false)
    (Hmade : Fs.ensureDir t dir = Some t') :
  getDirectoryStructure localeCompare t dir = ([], t') /\
  Fs.existsSync t' dir = true /\
  Fs.readdir t' dir = Some [] /\
  getDirectoryStructure localeCompare t' dir = ([], t').
Proof.
  assert (Hnew : Fs.lookup t' (Path.segments dir) = Some (Fs.Dir [])).
  { apply (mkdirs_new _ t); [|exact Hmade].
    unfold Fs.existsSync in Hmissing.
    by destruct (Fs.lookup t (Path.segments dir)). }
  assert (He : Fs.existsSync t' dir = true) by (unfold Fs.existsSync; by rewrite Hnew).
  assert (Hr : Fs.readdir t' dir = Some []) by (unfold Fs.readdir; by rewrite Hnew).
  split_and!; try done.
  - unfold getDirectoryStructure. by rewrite Hmissing, Hmade.
  - unfold getDirectoryStructure. by rewrite He, Hr.
Qed.

Lemma listing_creates_missing_directory_witness :
  exists t',
    getDirectoryStructure codeUnitCompare demoFiles "/srv/bots/u1/fresh" = ([], t') /\
    Fs.readdir t' "/srv/bots/u1" = Some ["fresh"; "hello"].
Proof.
  destruct (Fs.ensureDir demoFiles "/srv/bots/u1/fresh") as [t'|] eqn:Hmade;
    [|discriminate].
  exists t'.
  destruct (listing_creates_missing_directory codeUnitCompare demoFiles t'
              "/srv/bots/u1/fresh") as (H1 & _); [reflexivity|exact Hmade|].
  split; [exact H1|]. injection Hmade as <-. reflexivity.
Defined.

End ListingEntries.

(** ** Joined paths *)

Section Joined.

Import Path.
Local Open Scope list_scope.

Lemma append_cons c (a b : string) : (String c a ++ b)%string = String c (a ++ b)%string.
Proof. reflexivity. Qed.

Lemma split_not_nil p : Str.split slash p <> [].
Proof.
  destruct p as [|c p]; [done|]. cbn [Str.split].
  destruct (Ascii.eqb c slash); [done|]. by destruct (Str.split slash p).
Qed.

Lemma split_append a b :
  Str.split slash (a ++ String slash b)%string
  = Str.split slash a ++ Str.split slash b.
Proof.
  induction a as [|c a IH].
  - change (Str.split slash (String slash b) = [EmptyString] ++ Str.split slash b).
    cbn [Str.split]. by rewrite Ascii.eqb_refl.
  - rewrite append_cons. cbn [Str.split]. rewrite IH.
    destruct (Ascii.eqb c slash); [done|].
    pose proof (split_not_nil a). by destruct (Str.split slash a).
Qed.

Lemma split_pieces p : Forall (fun x => Str.split slash x = [x]) (Str.split slash p).
Proof.
  induction p as [|c p IH]; [by repeat constructor|].
  cbn [Str.split]. destruct (Ascii.eqb c slash) eqn:E.
  - constructor; [done|exact IH].
  - pose proof (split_not_nil p).
    destruct (Str.split slash p) as [|h t]; [done|].
    apply Forall_cons in IH as [Hh Ht]. constructor; [|done].
    cbn [Str.split]. by rewrite E, Hh.
Qed.

Lemma split_join l :
  l <> [] -> Forall (fun x => Str.split slash x = [x]) l ->
  Str.split slash (Str.join "/" l) = l.
Proof.
  induction l as [|x l IH]; [done|]. intros _ [Hx Hl]%Forall_cons.
  destruct l as [|y l]; [done|].
  change (Str.split slash (x ++ String slash (Str.join "/" (y :: l)))%string
          = x :: y :: l).
  rewrite split_append, Hx, IH; done.
Qed.

Lemma segments_join_segments l :
  Forall segment l -> segments (Str.join "/" l) = l.
Proof.
  intros H. unfold segments. destruct l as [|x l]; [done|].
  rewrite split_join; [|done|].
  - induction H as [|y k [Hy _] _ IH]; [done|].
    rewrite filter_cons_True; [by rewrite IH|]. by destruct y.
  - eapply Forall_impl; [exact H|]. by intros y [_ ?].
Qed.

Lemma segments_leading s : segments (String slash s) = segments s.
Proof.
  unfold segments. cbn [Str.split]. rewrite Ascii.eqb_refl.
  by rewrite filter_cons_False by (simpl; congruence).
Qed.

Lemma segments_trailing s : segments (s ++ "/")%string = segments s.
Proof.
  unfold segments. change "/"%string with (String slash EmptyString).
  rewrite split_append, filter_app. cbn [Str.split].
  rewrite filter_cons_False by (simpl; congruence). by rewrite app_nil_r.
Qed.

Lemma segment_dotdot : segment "..".
Proof. by split. Qed.

(** The segments [normalizeSegments] keeps are segments. *)
Lemma normalizeSegments_segments allow segs : forall res,
  Forall (fun x => Str.split slash x = [x]) segs -> Forall segment res ->
  Forall segment (normalizeSegments allow segs res).
Proof.
  induction segs as [|seg rest IH]; intros res Hs Hres; cbn [normalizeSegments].
  - by apply Forall_rev.
  - apply Forall_cons in Hs as [Hseg Hrest].
    destruct (Str.is_empty seg || String.eqb seg ".") eqn:E; [by apply IH|].
    destruct (String.eqb seg "..") eqn:E2.
    + destruct res as [|last res'].
      * apply IH; [done|]. destruct allow; [|done].
        constructor; [apply segment_dotdot|done].
      * apply Forall_cons in Hres as [Hlast Hres'].
        destruct (String.eqb last ".."); apply IH; try done.
        destruct allow; [|by constructor].
        constructor; [apply segment_dotdot|by constructor].
    + apply IH; [done|]. constructor; [|done]. split; [|done].
      by destruct seg.
Qed.

Lemma normalizeSegments_app allow l1 : forall l2 res,
  normalizeSegments allow (l1 ++ l2) res
  = normalizeSegments allow l2 (rev (normalizeSegments allow l1 res)).
Proof.
  induction l1 as [|seg l1 IH]; intros l2 res; cbn [app normalizeSegments].
  - by rewrite rev_involutive.
  - destruct (Str.is_empty seg || String.eqb seg "."); [apply IH|].
    destruct (String.eqb seg ".."); [|apply IH].
    destruct res as [|last res']; [apply IH|].
    destruct (String.eqb last ".."); apply IH.
Qed.

Lemma join_empty l : Forall segment l -> Str.is_empty (Str.join "/" l) = true -> l = [].
Proof.
  destruct l as [|x l]; [done|]. intros [[Hx _] _]%Forall_cons.
  destruct l as [|y l]; cbn [Str.join]; destruct x; done.
Qed.

(** The segments of a normalized absolute path are the ones
    [normalizeSegments] keeps. *)
Lemma segments_normalize_absolute p :
  isAbsolute p = true ->
  segments (normalize p) = normalizeSegments false (Str.split slash p) [].
Proof.
  intros Habs. unfold normalize. destruct p as [|c p]; [done|]. cbn [Str.is_empty].
  rewrite Habs. cbn [negb].
  set (kept := normalizeSegments false (Str.split slash (String c p)) []).
  assert (Hkept : Forall segment kept).
  { apply normalizeSegments_segments; [apply split_pieces|constructor]. }
  destruct (Str.is_empty (Str.join "/" kept)) eqn:E.
  - by rewrite (join_empty _ Hkept E).
  - change ("/" ++ ?b)%string with (String slash b).
    destruct (Str.endsWith "/" (String c p)).
    + by rewrite segments_leading, segments_trailing, segments_join_segments.
    + by rewrite segments_leading, segments_join_segments.
Qed.

Lemma isAbsolute_normalize p : isAbsolute p = true -> isAbsolute (normalize p) = true.
Proof.
  intros Habs. unfold normalize. destruct p as [|c p]; [done|]. cbn [Str.is_empty].
  rewrite Habs. by destruct (Str.is_empty _).
Qed.

Lemma isAbsolute_append a b : isAbsolute a = true -> isAbsolute (a ++ b)%string = true.
Proof. destruct a as [|c a]; [done|]. rewrite append_cons. by destruct a. Qed.

Lemma join_two d x :
  Str.is_empty d = false ->
  join [d; x]
  = normalize (if Str.is_empty x then d else d ++ String slash x)%string.
Proof.
  intros Hd. unfold join. rewrite filter_cons_True by (by rewrite Hd).
  destruct x as [|c x].
  - by rewrite filter_cons_False by (simpl; congruence).
  - by rewrite filter_cons_True by done.
Qed.

Lemma isAbsolute_not_empty d : isAbsolute d = true -> Str.is_empty d = false.
Proof. by destruct d. Qed.

(** The segments of [path.join(d, x)] for an absolute [d]: those of
    [d], normalized, then [x] resolved against them. *)
Lemma segments_join_absolute d x :
  isAbsolute d = true ->
  segments (join [d; x])
  = normalizeSegments false (Str.split slash x)
      (rev (normalizeSegments false (Str.split slash d) [])).
Proof.
  intros Habs. rewrite join_two by (by apply isAbsolute_not_empty).
  destruct x as [|c x]; cbn [Str.is_empty].
  - rewrite segments_normalize_absolute by done.
    cbn [Str.split normalizeSegments Str.is_empty orb]. by rewrite rev_involutive.
  - rewrite segments_normalize_absolute by (by apply isAbsolute_append).
    by rewrite split_append, normalizeSegments_app.
Qed.

Lemma isAbsolute_join d rest :
  isAbsolute d = true -> isAbsolute (join (d :: rest)) = true.
Proof.
  intros Habs. unfold join.
  rewrite filter_cons_True by (by rewrite (isAbsolute_not_empty d)).
  apply isAbsolute_normalize.
  destruct (filter _ rest) as [|y l]; [done|].
  change (Str.join "/" (d :: y :: l))
    with (d ++ String slash (Str.join "/" (y :: l)))%string.
  by apply isAbsolute_append.
Qed.

(** A single name, joined to an absolute directory, is its last
    segment. *)
Lemma segments_join_name d name :
  isAbsolute d = true -> segment name ->
  String.eqb name "." = false -> String.eqb name ".." = false ->
  segments (join [d; name])
  = normalizeSegments false (Str.split slash d) [] ++ [name].
Proof.
  intros Habs [Hne Hs] Hdot Hdd. rewrite segments_join_absolute by done.
  rewrite Hs. cbn [normalizeSegments]. rewrite Hdot, Hdd.
  assert (Str.is_empty name = false) as -> by (by destruct name).
  cbn [orb rev]. by rewrite rev_involutive.
Qed.

(** Without a ".." segment nothing is taken back. *)
Lemma normalizeSegments_no_parent allow l : forall res,
  existsb (String.eqb "..") l = false ->
  normalizeSegments allow l res
  = rev res ++ filter (fun s => (Str.is_empty s || String.eqb s ".") = false) l.
Proof.
  induction l as [|seg l IH]; intros res; cbn [existsb normalizeSegments].
  - by rewrite filter_nil, app_nil_r.
  - intros [Hseg Hl]%orb_false_iff. rewrite String.eqb_sym in Hseg. rewrite Hseg.
    destruct (Str.is_empty seg || String.eqb seg ".") eqn:E.
    + rewrite filter_cons_False by congruence. by apply IH.
    + rewrite filter_cons_True by done. rewrite (IH _ Hl). cbn [rev].
      by rewrite <- app_assoc.
Qed.

Lemma segments_no_dot p :
  hasDotSegment p = false ->
  normalizeSegments false (Str.split slash p) [] = segments p.
Proof.
  unfold hasDotSegment, segments. intros H.
  rewrite normalizeSegments_no_parent.
  - cbn [rev app]. induction (Str.split slash p) as [|s l IH]; [done|].
    cbn [existsb] in H. apply orb_false_iff in H as [[Hd _]%orb_false_iff Hl].
    rewrite !filter_cons, Hd, orb_false_r, (IH Hl).
    by destruct (Str.is_empty s).
  - induction (Str.split slash p) as [|s l IH]; [done|].
    cbn [existsb] in *. apply orb_false_iff in H as [[_ Hdd]%orb_false_iff Hl].
    rewrite String.eqb_sym, Hdd. by apply IH.
Qed.

Lemma is_prefix_app_r l more : is_prefix l (l ++ more) = true.
Proof.
  induction l as [|a l IH]; [done|]. cbn [app is_prefix].
  by rewrite String.eqb_refl.
Qed.

Lemma is_prefix_refl_inv l1 l2 : is_prefix l1 l2 = true -> is_prefix l2 l1 = true -> l1 = l2.
Proof.
  revert l2. induction l1 as [|a l1 IH]; intros [|b l2]; try done.
  cbn [is_prefix]. intros [Hab H1]%andb_true_iff [_ H2]%andb_true_iff.
  apply String.eqb_eq in Hab as ->. f_equal. by apply IH.
Qed.

(** Joined to an absolute directory without "." or ".." segments, a
    relative path without ".." segment stays in the directory. *)
Lemma join_inside root rel :
  isAbsolute root = true -> hasDotSegment root = false ->
  hasParentSegment rel = false ->
  inside root (join [root; rel]) = true.
Proof.
  intros Habs Hclean Hrel. unfold inside.
  rewrite segments_join_absolute by done.
  rewrite normalizeSegments_no_parent by done.
  rewrite rev_involutive, segments_no_dot by done.
  apply is_prefix_app_r.
Qed.

End Joined.

(** ** Paths that stay in the bot's directory *)

Section Contained.

Import Host Manage Demo.
Local Open Scope list_scope.

(** X14. When the bot's directory is an absolute path without "." or ".."
    segment (as [path.join] makes it) and the relative path of the
    request has no ".." segment, the joined path lies in the bot's
    directory: a write that is taken stores the content there, and what
    stands at any path outside the directory is as before. *)
Theorem write_without_parent_stays_inside
    (st : state) (sess : Auth.WebSession) (id filePath content : string)
    (i : nat) (bot : Bot) (st' : state)
    (Hfound : findBot id (Auth.userId sess) (bots st) = Some (i, bot))
    (Habs : Path.isAbsolute (path bot) = true)
    (Hclean : Path.hasDotSegment (path bot) = false)
    (Hrel : Path.hasParentSegment filePath = false)
    (Hsaved : writeRoute st sess id filePath content = (Json 200 true FileSaved, st')) :
  let fullPath := Path.join [path bot; filePath] in
  Path.inside (path bot) fullPath = true /\
  Fs.readFile (fs st') fullPath = Some content /\
  forall p, Path.inside (path bot) p = false ->
            Fs.shape (fs st') (Path.segments p) = Fs.shape (fs st) (Path.segments p).
Proof.
  intros fullPath.
  assert (Hin : Path.inside (path bot) fullPath = true) by (by apply join_inside).
  unfold writeRoute in Hsaved. rewrite Hfound in Hsaved. fold fullPath in Hsaved.
  destruct (Fs.writeFile (fs st) fullPath content) as [t|] eqn:Hw; [|done].
  injection Hsaved as <-. cbn [with_fs fs].
  split_and!; [done|by apply (writeFile_readFile (fs st))|].
  intros p Hp. apply (write_shape_other _ _ _ _ _ Hw).
  intros Heq. unfold Path.inside in Hin, Hp. congruence.
Qed.

Lemma write_without_parent_stays_inside_witness :
  Path.inside "/srv/bots/u1/hello" (Path.join ["/srv/bots/u1/hello"; "lib/./util.js"])
  = true.
Proof.
  apply (write_without_parent_stays_inside libState demoSession "b1"
           "lib/./util.js" "x" 0 demoBot
           (snd (writeRoute libState demoSession "b1" "lib/./util.js" "x")));
    reflexivity.
Defined.

End Contained.

(** ** From creating a bot to running it *)

Section CreateAndStart.

Import Host Manage Demo.
Local Open Scope list_scope.

(** What the file work of POST /bot/create did when the request brought
    code and no file. *)
Lemma populate_code botDir botName botCode t filled t' :
  Str.falsy botCode = false ->
  populate botDir botName botCode None t = (Some filled, t') ->
  filled = true /\
  exists t1 t2,
    Fs.ensureDir t botDir = Some t1 /\
    Fs.writeFile t1 (Path.join [botDir; "index.js"]) botCode = Some t2 /\
    Fs.writeFile t2 (Path.join [botDir; "package.json"]) (packageJson botName)
    = Some t'.
Proof.
  intros Hcode. unfold populate, io_bind, io_try, io_ret. rewrite Hcode. cbn [negb].
  destruct (Fs.ensureDir t botDir) as [t1|] eqn:E1; cbv beta iota zeta; [|done].
  destruct (Fs.writeFile t1 _ botCode) as [t2|] eqn:E2; cbv beta iota zeta; [|done].
  destruct (Fs.writeFile t2 _ (packageJson botName)) as [t3|] eqn:E3;
    cbv beta iota zeta; [|done].
  intros [= <- <-]. split; [done|]. by exists t1, t2.
Qed.

Lemma segment_index : Path.segment "index.js".
Proof. by split. Qed.

Lemma segment_package : Path.segment "package.json".
Proof. by split. Qed.

(** X15. A bot created from code typed into the form can be started:
    when POST /bot/create answers success for a request with code and no
    file, the bot's directory holds index.js with that code and the
    generated package.json, the new document is stored as stopped, and a
    start request of the owner runs index.js in the bot's directory and
    stores the bot as running. *)
Theorem created_bot_starts
    (st : state) (sess : Auth.WebSession) (dirname : string) (now : Z)
    (newId botName botCode : string) (st' : state)
    (Hdir : Path.isAbsolute dirname = true)
    (Hcode : botCode <> EmptyString)
    (Hnew : newId ∉ bot_id <$> bots st)
    (Hcons : consistent st)
    (Hcreated : createRoute st sess dirname now newId botName botCode None
                = (Json 200 true (BotCreated newId), st')) :
  let botDir := Path.join [dirname; "bots"; Auth.userId sess; botName] in
  Fs.readFile (fs st') (Path.join [botDir; "index.js"]) = Some botCode /\
  Fs.readFile (fs st') (Path.join [botDir; "package.json"])
  = Some (packageJson botName) /\
  (exists i bot, findBot newId (Auth.userId sess) (bots st') = Some (i, bot) /\
                 path bot = botDir /\ status bot = stopped /\ name bot = botName) /\
  findMainFile (fs st') botDir = Some (Path.join [botDir; "index.js"]) /\
  forall now2 p,
    exists st'',
      startRoute st' sess now2 (Spawned p) newId = Reply (Json 200 true Started) st'' /\
      botProcesses st'' !! newId = Some p /\
      last (spawned st'')
      = Some {| pid := p; mainFile := Path.join [botDir; "index.js"]; cwd := botDir |} /\
      (exists i bot, findBot newId (Auth.userId sess) (bots st'') = Some (i, bot) /\
                     status bot = running /\ lastStarted bot = Some now2).
Proof.
  intros botDir. unfold createRoute in Hcreated.
  destruct (Str.falsy botName); [done|].
  destruct (_ <=? _)%nat; [done|]. fold botDir in Hcreated.
  destruct (populate botDir botName botCode None (fs st)) as [[filled|] t] eqn:Hp;
    [|done].
  destruct (populate_code _ _ _ _ _ _ (falsy_false _ Hcode) Hp)
    as (-> & t1 & t2 & H1 & H2 & H3).
  injection Hcreated as <-.
  set (bot := {| bot_id := newId; name := botName; owner := Auth.userId sess;
                 path := botDir; status := stopped; createdAt := now;
                 lastStarted := None; lastStopped := None |}).
  cbn [with_bots with_fs bots fs botProcesses spawned killed].
  assert (Habs : Path.isAbsolute botDir = true) by (by apply isAbsolute_join).
  assert (Hdiff : Path.segments (Path.join [botDir; "index.js"])
                  <> Path.segments (Path.join [botDir; "package.json"])).
  { rewrite (segments_join_name botDir "index.js" Habs segment_index) by done.
    rewrite (segments_join_name botDir "package.json" Habs segment_package) by done.
    intros H%app_inv_head. discriminate. }
  assert (Hindex : Fs.readFile t (Path.join [botDir; "index.js"]) = Some botCode).
  { rewrite readFile_shape.
    rewrite (write_shape_other _ _ _ _ _ H3 Hdiff).
    rewrite <- readFile_shape. by apply (writeFile_readFile t1). }
  assert (Hmain : findMainFile t botDir = Some (Path.join [botDir; "index.js"])).
  { unfold findMainFile, possibleFiles. cbn [firstExisting].
    assert (Fs.existsSync t (Path.join [botDir; "index.js"]) = true) as ->; [|done].
    unfold Fs.existsSync. unfold Fs.readFile in Hindex.
    by destruct (Fs.lookup t (Path.segments (Path.join [botDir; "index.js"]))). }
  assert (Hfind : findBot newId (Auth.userId sess) (bots st ++ [bot])
                  = Some (length (bots st), bot)).
  { unfold findBot. rewrite list_find_app_r.
    - simpl. by rewrite decide_True.
    - by apply findBot_id_None. }
  assert (Hidle : botProcesses st !! newId = None).
  { destruct (botProcesses st !! newId) as [q|] eqn:Hq; [|done].
    destruct Hcons as [_ Hh]. destruct (Hh newId q Hq) as [(j & b & Hj & Hb & _) _].
    destruct Hnew. apply list_elem_of_fmap. exists b. split; [done|].
    by eapply list_elem_of_lookup_2. }
  split_and!; try done.
  - by apply (writeFile_readFile t2).
  - by exists (length (bots st)), bot.
  - intros now2 p. unfold startRoute.
    cbn [with_bots with_fs bots fs botProcesses spawned killed].
    rewrite Hfind. cbn [bot_id path bot]. rewrite Hidle, Hmain.
    eexists. split; [reflexivity|]. cbn [botProcesses spawned bots].
    split_and!.
    + by rewrite lookup_insert_eq.
    + by rewrite last_snoc.
    + exists (length (bots st)), (started now2 bot). split; [|done].
      by apply (findBot_insert _ _ _ _ bot).
Qed.

Lemma created_bot_starts_witness :
  let st' := snd (createRoute emptyState demoSession "/srv" 10 "b2" "second"
                    "console.log(2)" None) in
  findMainFile (fs st') "/srv/bots/u1/second" = Some "/srv/bots/u1/second/index.js".
Proof.
  apply (created_bot_starts emptyState demoSession "/srv" 10 "b2" "second"
           "console.log(2)"
           (snd (createRoute emptyState demoSession "/srv" 10 "b2" "second"
                   "console.log(2)" None))).
  - reflexivity.
  - discriminate.
  - intros H. by apply elem_of_nil in H.
  - split; [constructor|]. intros id p H. simpl in H. by rewrite lookup_empty in H.
  - reflexivity.
Defined.

End CreateAndStart.

(** ** Ownership, quota and the end of a process *)

Section Ownership.

Import Host Manage Demo.
Local Open Scope list_scope.

Lemma findBot_foreign id userId l :
  (forall b, b ∈ l -> bot_id b = id -> owner b <> userId) ->
  findBot id userId l = None.
Proof.
  intros H. apply list_find_None, Forall_forall. intros b Hb [Hid Ho].
  by apply (H b).
Qed.

(** X16. No route acts on a bot of another user: when no document with
    the requested identifier belongs to the user of the session, reading,
    writing, deleting a file, uploading, starting, stopping and deleting
    the bot all answer "bot not found" and leave the state as it was,
    whatever else the request holds. *)
Theorem routes_refuse_foreign_bots
    (st : state) (sess : Auth.WebSession) (id : string)
    (Hforeign : forall b, b ∈ bots st -> bot_id b = id ->
                          owner b <> Auth.userId sess) :
  (forall filePath, readRoute st sess id filePath = Json 404 false BotNotFound) /\
  (forall filePath content,
     writeRoute st sess id filePath content = (Json 404 false BotNotFound, st)) /\
  (forall filePath,
     deleteFileRoute st sess id filePath = (Answer 404 false BotMissing, st)) /\
  (forall files, uploadRoute st sess id files = (Answer 404 false BotMissing, st)) /\
  (forall localeCompare,
     filesRoute localeCompare st sess id = (Answer 404 false BotMissing, st)) /\
  (forall now os, startRoute st sess now os id = Reply (Json 200 false BotNotFound) st) /\
  (forall now, stopRoute st sess now id = (Json 200 false BotNotFound, st)) /\
  deleteBotRoute st sess id = (Answer 200 false BotMissing, st).
Proof.
  pose proof (findBot_foreign _ _ _ Hforeign) as Hf.
  split_and!; intros;
    unfold readRoute, writeRoute, deleteFileRoute, uploadRoute, filesRoute,
           startRoute, stopRoute, deleteBotRoute;
    by rewrite Hf.
Qed.

Lemma routes_refuse_foreign_bots_witness :
  stopRoute runningState strangerSession 30 "b1"
  = (Json 200 false BotNotFound, runningState) /\
  deleteBotRoute runningState strangerSession "b1"
  = (Answer 200 false BotMissing, runningState).
Proof.
  destruct (routes_refuse_foreign_bots runningState strangerSession "b1")
    as (_ & _ & _ & _ & _ & _ & Hstop & Hdel).
  - intros b [->|[]%elem_of_nil]%elem_of_cons _. discriminate.
  - split; [apply Hstop|exact Hdel].
Defined.

Lemma countBots_app userId l k :
  countBots userId (l ++ k) = countBots userId l + countBots userId k.
Proof. unfold countBots. by rewrite filter_app, length_app. Qed.

(** X17. POST /bot/create adds at most one document, for the user of the
    session only, and only when that user has fewer bots than the limit
    of the session's tier; whatever the request, the bots of the other
    users are counted as before. *)
Theorem create_respects_quota
    (st : state) (sess : Auth.WebSession) (dirname : string) (now : Z)
    (newId botName botCode : string) (upload : option Upload) :
  let st' := snd (createRoute st sess dirname now newId botName botCode upload) in
  (bots st' = bots st \/
   (countBots (Auth.userId sess) (bots st) < getBotLimit (Auth.tier sess) /\
    countBots (Auth.userId sess) (bots st') = S (countBots (Auth.userId sess) (bots st)) /\
    fst (createRoute st sess dirname now newId botName botCode upload)
    = Json 200 true (BotCreated newId))) /\
  (forall userId, userId <> Auth.userId sess ->
                  countBots userId (bots st') = countBots userId (bots st)) /\
  botProcesses st' = botProcesses st /\ spawned st' = spawned st.
Proof.
  unfold createRoute.
  destruct (Str.falsy botName); [by split_and!; auto|].
  destruct (Nat.leb_spec (getBotLimit (Auth.tier sess))
              (countBots (Auth.userId sess) (bots st))) as [Hle|Hlt];
    [by split_and!; auto|].
  destruct (populate _ botName botCode upload (fs st)) as [[[]|] t];
    cbn [snd fst with_bots with_fs bots botProcesses spawned];
    [|by split_and!; auto..].
  split_and!; try done.
  - right. split_and!; try done. rewrite countBots_app. unfold countBots at 2.
    rewrite filter_cons_True by done. simpl. lia.
  - intros userId Hu. rewrite countBots_app. unfold countBots at 2.
    rewrite filter_cons_False by (simpl; congruence). simpl. lia.
Qed.

Lemma mkdirs_exists segs : forall t t',
  Fs.mkdirs t segs = Some t' -> exists es, Fs.lookup t' segs = Some (Fs.Dir es).
Proof.
  induction segs as [|s rest IH]; intros t t'; cbn [Fs.mkdirs Fs.lookup].
  - destruct t; [done|]. intros [= <-]. eauto.
  - destruct t as [c|es]; [done|].
    destruct (Fs.lookup_entry s es) as [child|] eqn:E.
    + destruct (Fs.mkdirs child rest) as [child'|] eqn:M; [|done].
      intros [= <-]. cbn [Fs.lookup]. rewrite (lookup_entry_set_entry _ _ _ _ E).
      by apply (IH child).
    + destruct (Fs.mkdirs (Fs.Dir []) rest) as [child'|] eqn:M; [|done].
      intros [= <-]. cbn [Fs.lookup]. rewrite (lookup_entry_app_new _ _ _ E).
      by apply (IH (Fs.Dir [])).
Qed.

(** X18. A request to create a bot that brings neither a file nor code
    is refused only after the bot's directory has been made: below the
    quota and with a name, the answer is "upload a file or enter code",
    no document is added, and the directory exists afterwards. *)
Theorem refused_create_leaves_directory
    (st : state) (sess : Auth.WebSession) (dirname : string) (now : Z)
    (newId botName : string) (t : Fs.node)
    (Hname : botName <> EmptyString)
    (Hquota : countBots (Auth.userId sess) (bots st) < getBotLimit (Auth.tier sess))
    (Hmade : Fs.ensureDir (fs st)
               (Path.join [dirname; "bots"; Auth.userId sess; botName]) = Some t) :
  let botDir := Path.join [dirname; "bots"; Auth.userId sess; botName] in
  createRoute st sess dirname now newId botName EmptyString None
  = (Json 200 false EnterFileOrCode, with_fs st t) /\
  outcome_of (Json 200 false EnterFileOrCode) = ValidationError /\
  bots (with_fs st t) = bots st /\
  Fs.existsSync t botDir = true /\
  Fs.readdir t botDir <> None.
Proof.
  intros botDir. unfold createRoute. rewrite (falsy_false _ Hname).
  apply Nat.leb_gt in Hquota. rewrite Hquota. fold botDir.
  unfold populate, io_bind, io_try, io_ret. fold botDir in Hmade. rewrite Hmade.
  cbn. destruct (mkdirs_exists _ _ _ Hmade) as [es Hes].
  unfold Fs.existsSync, Fs.readdir. rewrite Hes. by split_and!.
Qed.

Lemma refused_create_leaves_directory_witness :
  exists t,
    createRoute emptyState demoSession "/srv" 10 "b2" "second" EmptyString None
    = (Json 200 false EnterFileOrCode, with_fs emptyState t) /\
    Fs.existsSync (fs emptyState) "/srv/bots/u1/second" = false /\
    Fs.existsSync t "/srv/bots/u1/second" = true.
Proof.
  destruct (Fs.ensureDir (fs emptyState) (Path.join ["/srv"; "bots"; "u1"; "second"]))
    as [t|] eqn:E; [|discriminate].
  exists t.
  destruct (refused_create_leaves_directory emptyState demoSession "/srv" 10 "b2"
              "second" t) as (H1 & _ & _ & H2 & _).
  - discriminate.
  - vm_compute. lia.
  - exact E.
  - split; [exact H1|]. split; [reflexivity|exact H2].
Defined.

(** X19. When a bot's process ends, the 'close' listener takes the bot
    out of [botProcesses] and stores it as stopped.  It sends no signal
    and writes no time: [lastStopped] and [lastStarted] stay as they
    were.  The other bots and their processes are not touched, and a
    later start request for the bot is not answered "already running". *)
Theorem close_marks_stopped
    (st : state) (id : string) (i : nat) (bot : Bot)
    (Hdoc : bots st !! i = Some bot)
    (Hid : bot_id bot = id)
    (Hids : NoDup (bot_id <$> bots st)) :
  let st' := onClose st id in
  botProcesses st' !! id = None /\
  (forall k, k <> id -> botProcesses st' !! k = botProcesses st !! k) /\
  (exists bot', bots st' !! i = Some bot' /\ status bot' = stopped /\
                lastStopped bot' = lastStopped bot /\
                lastStarted bot' = lastStarted bot /\ owner bot' = owner bot) /\
  (forall j, j <> i -> bots st' !! j = bots st !! j) /\
  killed st' = killed st /\ spawned st' = spawned st /\ fs st' = fs st /\
  (forall sess now os,
     startRoute st' sess now os id <> Reply (Json 200 true AlreadyRunning) st').
Proof.
  intros st'.
  assert (Hj : list_find (fun b => bot_id b = id) (bots st) = Some (i, bot)).
  { apply list_find_Some. split_and!; try done.
    intros j y Hy Hlt Hyid.
    assert (i = j); [|lia].
    eapply (NoDup_lookup _ _ _ id Hids);
      rewrite list_lookup_fmap; [rewrite Hdoc|rewrite Hy]; simpl; congruence. }
  assert (Hnone : botProcesses st' !! id = None)
    by (subst st'; unfold onClose; cbn [botProcesses]; by rewrite lookup_delete_eq).
  subst st'. unfold onClose in *. rewrite Hj in *.
  cbn [bots botProcesses killed spawned fs] in *.
  split_and!; try done.
  - intros k Hk. by rewrite lookup_delete_ne.
  - exists (set_stopped bot). split; [|done].
    apply list_lookup_insert_eq. by eapply lookup_lt_Some.
  - intros j Hne. by rewrite list_lookup_insert_ne.
  - intros sess now os. unfold startRoute. cbn [bots botProcesses fs].
    destruct (findBot id (Auth.userId sess) _) as [[k b]|] eqn:Hf; [|done].
    destruct (findBot_Some _ _ _ _ _ Hf) as (_ & -> & _).
    rewrite lookup_delete_eq.
    destruct (findMainFile (fs st) (path b)); [|done].
    by destruct os.
Qed.

Lemma close_marks_stopped_witness :
  let st' := onClose runningState "b1" in
  botProcesses st' !! "b1" = None /\
  map (fun b => (status b, lastStopped b)) (bots st') = [(stopped, None)].
Proof.
  split; [|reflexivity].
  apply (close_marks_stopped runningState "b1" 0 (started 10 demoBot)).
  - reflexivity.
  - reflexivity.
  - apply (bool_decide_unpack _). vm_compute. exact I.
Defined.

End Ownership.
